(** * Priority queue and scheduler daemon of tomtom-api

    A shallow embedding of [tomtom_api.priority_queue] (the queue item, the
    parquet-backed store, the admin functions and the daemon loop) together
    with the part of [tomtom_api.client] the daemon talks to.

    Python objects are mutated in place and exceptions leave the mutations
    done so far in place; the embedding therefore threads the state
    explicitly and returns it also when an exception is raised. *)

From Stdlib Require Import ZArith Bool String List Lia Sorted.
From stdpp Require Import gmap strings list pretty.

Open Scope string_scope.
Open Scope Z_scope.

(** ** Exceptions *)

(** The exception classes that occur.  [KeyboardInterrupt] and [SystemExit]
    derive from [BaseException] only, every other one from [Exception]. *)
Inductive exn : Type :=
  | ValueError (msg : string)
  | AttributeError (msg : string)
  | KeyError (msg : string)
  | OSError (msg : string)
  | Exception (msg : string)
  | KeyboardInterrupt
  | SystemExit.

(** [isinstance(e, Exception)] *)
Definition is_Exception (e : exn) : bool :=
  match e with
  | KeyboardInterrupt | SystemExit => false
  | _ => true
  end.

(** [str(e)] *)
Definition str_exn (e : exn) : string :=
  match e with
  | ValueError m | AttributeError m | KeyError m | OSError m | Exception m => m
  | KeyboardInterrupt | SystemExit => EmptyString
  end.

(** ** A state and exception monad

    [M S A] is a computation over a mutable state [S] that returns an [A]
    or raises; the state is returned in both cases. *)
Definition M (S A : Type) : Type := S -> (exn + A) * S.

Definition ret {S A : Type} (a : A) : M S A := fun s => (inr a, s).

Definition raise {S A : Type} (e : exn) : M S A := fun s => (inl e, s).

Definition bind {S A B : Type} (m : M S A) (k : A -> M S B) : M S B :=
  fun s => match m s with
           | (inl e, s') => (inl e, s')
           | (inr a, s') => k a s'
           end.

Definition get {S : Type} : M S S := fun s => (inr s, s).

Definition modify {S : Type} (f : S -> S) : M S unit := fun s => (inr tt, f s).

(** [try: m  except Exception as e: h e]: exceptions outside [Exception]
    pass through. *)
Definition try_except_Exception {S A : Type} (m : M S A) (h : exn -> M S A) : M S A :=
  fun s => match m s with
           | (inl e, s') => if is_Exception e then h e s' else (inl e, s')
           | (inr a, s') => (inr a, s')
           end.

Notation "x <- m ;; k" := (bind m (fun x => k))
  (at level 20, m at level 99, k at level 200, only parsing).
Notation "m ;;; k" := (bind m (fun _ => k))
  (at level 100, k at level 200, only parsing, right associativity).

(** [for x in l: body x] *)
Fixpoint for_each {S A : Type} (l : list A) (body : A -> M S unit) : M S unit :=
  match l with
  | [] => ret tt
  | x :: xs => body x ;;; for_each xs body
  end.

(** [[f x for x in l]] with an effectful [f] *)
Fixpoint map_M {S A B : Type} (f : A -> M S B) (l : list A) : M S (list B) :=
  match l with
  | [] => ret []
  | x :: xs => y <- f x ;; ys <- map_M f xs ;; ret (y :: ys)
  end.

(** ** Enumerations *)

Module QueueItemStatus.
(** priority_queue/models/status.py *)
Inductive t : Type := IS_WAITING | SUBMITTED | COMPLETED | CANCELED | HAS_ERROR.

Definition eqb (a b : t) : bool :=
  match a, b with
  | IS_WAITING, IS_WAITING | SUBMITTED, SUBMITTED | COMPLETED, COMPLETED
  | CANCELED, CANCELED | HAS_ERROR, HAS_ERROR => true
  | _, _ => false
  end.

#[global] Instance eq_dec : EqDecision t.
Proof. solve_decision. Defined.

(** [str(status)], as it appears in the f-strings of the messages *)
Definition str (s : t) : string :=
  match s with
  | IS_WAITING => "QueueItemStatus.IS_WAITING"
  | SUBMITTED => "QueueItemStatus.SUBMITTED"
  | COMPLETED => "QueueItemStatus.COMPLETED"
  | CANCELED => "QueueItemStatus.CANCELED"
  | HAS_ERROR => "QueueItemStatus.HAS_ERROR"
  end.
End QueueItemStatus.

Module TomtomJobState.
(** traffic_stats/models/status.py *)
Inductive t : Type :=
  | NEW | SCHEDULED | MAPMATCHING | MAPMATCHED | READING_GEOBASE | CALCULATIONS
  | NEED_CONFIRMATION | DONE | ERROR | REJECTED | CANCELED | EXPIRED.

Definition value (s : t) : Z :=
  match s with
  | NEW => 0 | SCHEDULED => 1 | MAPMATCHING => 2 | MAPMATCHED => 3
  | READING_GEOBASE => 4 | CALCULATIONS => 5 | NEED_CONFIRMATION => 6
  | DONE => 7 | ERROR => 8 | REJECTED => 9 | CANCELED => 10 | EXPIRED => 11
  end.

Definition eqb (a b : t) : bool := value a =? value b.

Definition name (s : t) : string :=
  match s with
  | NEW => "NEW" | SCHEDULED => "SCHEDULED" | MAPMATCHING => "MAPMATCHING"
  | MAPMATCHED => "MAPMATCHED" | READING_GEOBASE => "READING_GEOBASE"
  | CALCULATIONS => "CALCULATIONS" | NEED_CONFIRMATION => "NEED_CONFIRMATION"
  | DONE => "DONE" | ERROR => "ERROR" | REJECTED => "REJECTED"
  | CANCELED => "CANCELED" | EXPIRED => "EXPIRED"
  end.
End TomtomJobState.

(** traffic_stats/__init__.py *)
Definition N_CONCURRENT_JOB_IN_PROGRESS : Z := 5.

(** ** Job payloads

    The three job classes of traffic_stats/models/jobs.  The queue treats a
    job as its class together with its dictionary ([to_dict()], kept here as
    the JSON text); none of the classes derives from another one, each
    derives from [TomtomJob]. *)
Inductive JobClass : Type := TomtomRouteJob | TomtomAreaJob | TomtomTrafficDensityJob.

Record TomtomJob : Type := {
  job_class : JobClass;
  to_dict : string
}.

Definition JobClass_eqb (a b : JobClass) : bool :=
  match a, b with
  | TomtomRouteJob, TomtomRouteJob | TomtomAreaJob, TomtomAreaJob
  | TomtomTrafficDensityJob, TomtomTrafficDensityJob => true
  | _, _ => false
  end.

(** [cls.__name__] *)
Definition class_name (c : JobClass) : string :=
  match c with
  | TomtomRouteJob => "TomtomRouteJob"
  | TomtomAreaJob => "TomtomAreaJob"
  | TomtomTrafficDensityJob => "TomtomTrafficDensityJob"
  end.

(** [payload.__class__.__name__], also for [payload = None] *)
Definition payload_class_name (p : option TomtomJob) : string :=
  match p with
  | Some j => class_name (job_class j)
  | None => "NoneType"
  end.

(** ** Responses of the remote service (traffic_stats/models/responses.py) *)

Record TomtomResponseAnalysis : Type := {
  ra_response_status : string;
  ra_messages : list string;
  ra_job_id : option Z
}.

Record TomtomResponseStatus : Type := {
  rs_job_id : Z;
  rs_job_state : TomtomJobState.t;
  rs_response_status : string
}.

Record TomtomJobInfo : Type := {
  ji_job_id : Z;
  ji_state : TomtomJobState.t
}.

Record TomtomResponseSearchJobs : Type := {
  content : list TomtomJobInfo;
  total_elements : Z
}.

(** ** The remote adapter (client.py)

    Every call of the client is a request to the remote service; its answer
    may depend on everything that was requested before, so each operation
    receives the history of the earlier requests (latest first).  A call
    either raises (403, 400 in the structured form, network failure) or
    returns the decoded response. *)
Inductive Request : Type :=
  | PostRouteAnalysis (job : TomtomJob)
  | PostAreaAnalysis (job : TomtomJob)
  | PostTrafficDensity (job : TomtomJob)
  | GetStatus (job_id : option Z)
  | SearchJobs (state : list TomtomJobState.t).

Record TomtomClient : Type := {
  post_job_route_analysis : list Request -> TomtomJob -> exn + TomtomResponseAnalysis;
  post_job_area_analysis : list Request -> TomtomJob -> exn + TomtomResponseAnalysis;
  post_job_traffic_density : list Request -> TomtomJob -> exn + TomtomResponseAnalysis;
  status : list Request -> option Z -> exn + TomtomResponseStatus;
  search_jobs : list Request -> list TomtomJobState.t -> exn + TomtomResponseSearchJobs
}.

(** ** Queue items and table rows *)

(** priority_queue/models/queue.py, the attributes of [QueueItem].
    A timestamp is the instant in nanoseconds; [None]/[NaT] is [None]. *)
Record QueueItem : Type := {
  uid : string;
  name : string;
  report_type : option string;
  payload : option TomtomJob;
  priority : Z;
  created_timestamp : Z;
  updated_timestamp : option Z;
  submitted_timestamp : option Z;
  completed_timestamp : option Z;
  cancelled_timestamp : option Z;
  error_timestamp : option Z;
  tomtom_job_id : option Z;
  payload_link : string
}.

(** One record of the dataframe: the columns of [PriorityQueueDB.columns]. *)
Record Row : Type := {
  r_uid : string;
  r_name : string;
  r_report_type : string;
  r_payload_link : string;
  r_priority : Z;
  r_created_timestamp : Z;
  r_updated_timestamp : option Z;
  r_submitted_timestamp : option Z;
  r_completed_timestamp : option Z;
  r_cancelled_timestamp : option Z;
  r_error_timestamp : option Z;
  r_tomtom_job_id : option Z
}.

(** ** The process and its surroundings *)

Inductive LogLevel : Type := INFO | WARNING | ERROR | CRITICAL.

(** The file [db.parquet]: absent, holding a table, or present but such that
    [pd.read_parquet] raises on it. *)
Inductive DbFile : Type :=
  | NoFile
  | Parquet (rows : list Row)
  | Unreadable (why : string).

(** What is fixed when the process starts: the configured home folder and
    loop duration (in seconds), the digest function, the decoders of the job
    classes, and the value of the default argument
    [created_timestamp = dt.datetime.now().astimezone()] of
    [QueueItem.__init__], which Python evaluates once, when the [def]
    statement is executed at import.

    A decoder is [report_class.from_dict(json.load(f))] on the text of a
    payload file: [from_dict_ok] tells whether it returns, and
    [from_dict_error] is what it raises when it does not (a JSONDecodeError
    of [json.load], the KeyError of a dictionary that lacks a key, the
    ValueError of a constructor, ...), in every case an [Exception]. *)
Record Runtime : Type := {
  home : string;
  md5_hexdigest : string -> string;
  from_dict_ok : JobClass -> string -> bool;
  from_dict_error : JobClass -> string -> exn;
  from_dict_error_is_Exception :
    forall (c : JobClass) (d : string), is_Exception (from_dict_error c d) = true;
  default_created_timestamp : Z;
  loop_duration : Z
}.

(** The mutable state: the singleton [PriorityQueueDB] (whether it has been
    instantiated, and its dataframe), the files, the clock (the reading of
    the [k]-th call of [now()]), the handlers' output without the DEBUG
    records, and the requests sent so far (latest first). *)
Record World : Type := {
  db_instantiated : bool;
  df : list Row;
  db_file : DbFile;
  payload_files : gmap string string;
  clock : nat -> Z;
  clock_reads : nat;
  log : list (LogLevel * string);
  requests : list Request
}.

(** *** Field updates *)

Definition with_item_fields (it : QueueItem)
    (name' : string) (payload' : option TomtomJob) (priority' : Z)
    (updated' submitted' completed' cancelled' error' : option Z)
    (job_id' : option Z) : QueueItem :=
  {| uid := uid it; name := name'; report_type := report_type it;
     payload := payload'; priority := priority';
     created_timestamp := created_timestamp it;
     updated_timestamp := updated'; submitted_timestamp := submitted';
     completed_timestamp := completed'; cancelled_timestamp := cancelled';
     error_timestamp := error'; tomtom_job_id := job_id';
     payload_link := payload_link it |}.

Definition set_name (v : string) (it : QueueItem) : QueueItem :=
  with_item_fields it v (payload it) (priority it) (updated_timestamp it)
    (submitted_timestamp it) (completed_timestamp it) (cancelled_timestamp it)
    (error_timestamp it) (tomtom_job_id it).

Definition set_payload (v : option TomtomJob) (it : QueueItem) : QueueItem :=
  with_item_fields it (name it) v (priority it) (updated_timestamp it)
    (submitted_timestamp it) (completed_timestamp it) (cancelled_timestamp it)
    (error_timestamp it) (tomtom_job_id it).

Definition set_priority (v : Z) (it : QueueItem) : QueueItem :=
  with_item_fields it (name it) (payload it) v (updated_timestamp it)
    (submitted_timestamp it) (completed_timestamp it) (cancelled_timestamp it)
    (error_timestamp it) (tomtom_job_id it).

Definition set_updated_timestamp (v : option Z) (it : QueueItem) : QueueItem :=
  with_item_fields it (name it) (payload it) (priority it) v
    (submitted_timestamp it) (completed_timestamp it) (cancelled_timestamp it)
    (error_timestamp it) (tomtom_job_id it).

Definition set_submitted_timestamp (v : option Z) (it : QueueItem) : QueueItem :=
  with_item_fields it (name it) (payload it) (priority it) (updated_timestamp it)
    v (completed_timestamp it) (cancelled_timestamp it)
    (error_timestamp it) (tomtom_job_id it).

Definition set_completed_timestamp (v : option Z) (it : QueueItem) : QueueItem :=
  with_item_fields it (name it) (payload it) (priority it) (updated_timestamp it)
    (submitted_timestamp it) v (cancelled_timestamp it)
    (error_timestamp it) (tomtom_job_id it).

Definition set_cancelled_timestamp (v : option Z) (it : QueueItem) : QueueItem :=
  with_item_fields it (name it) (payload it) (priority it) (updated_timestamp it)
    (submitted_timestamp it) (completed_timestamp it) v
    (error_timestamp it) (tomtom_job_id it).

Definition set_error_timestamp (v : option Z) (it : QueueItem) : QueueItem :=
  with_item_fields it (name it) (payload it) (priority it) (updated_timestamp it)
    (submitted_timestamp it) (completed_timestamp it) (cancelled_timestamp it)
    v (tomtom_job_id it).

Definition set_tomtom_job_id (v : option Z) (it : QueueItem) : QueueItem :=
  with_item_fields it (name it) (payload it) (priority it) (updated_timestamp it)
    (submitted_timestamp it) (completed_timestamp it) (cancelled_timestamp it)
    (error_timestamp it) v.

Definition with_world_fields (w : World) (inst : bool) (df' : list Row)
    (file' : DbFile) (files' : gmap string string) (reads' : nat)
    (log' : list (LogLevel * string)) (requests' : list Request) : World :=
  {| db_instantiated := inst; df := df'; db_file := file';
     payload_files := files'; clock := clock w; clock_reads := reads';
     log := log'; requests := requests' |}.

Definition set_db_instantiated (v : bool) (w : World) : World :=
  with_world_fields w v (df w) (db_file w) (payload_files w) (clock_reads w)
    (log w) (requests w).

Definition set_df (v : list Row) (w : World) : World :=
  with_world_fields w (db_instantiated w) v (db_file w) (payload_files w)
    (clock_reads w) (log w) (requests w).

Definition set_db_file (v : DbFile) (w : World) : World :=
  with_world_fields w (db_instantiated w) (df w) v (payload_files w)
    (clock_reads w) (log w) (requests w).

Definition set_payload_files (v : gmap string string) (w : World) : World :=
  with_world_fields w (db_instantiated w) (df w) (db_file w) v
    (clock_reads w) (log w) (requests w).

Definition set_clock_reads (v : nat) (w : World) : World :=
  with_world_fields w (db_instantiated w) (df w) (db_file w) (payload_files w)
    v (log w) (requests w).

Definition set_log (v : list (LogLevel * string)) (w : World) : World :=
  with_world_fields w (db_instantiated w) (df w) (db_file w) (payload_files w)
    (clock_reads w) v (requests w).

Definition set_requests (v : list Request) (w : World) : World :=
  with_world_fields w (db_instantiated w) (df w) (db_file w) (payload_files w)
    (clock_reads w) (log w) v.

Definition set_clock (v : nat -> Z) (w : World) : World :=
  {| db_instantiated := db_instantiated w; df := df w; db_file := db_file w;
     payload_files := payload_files w; clock := v; clock_reads := clock_reads w;
     log := log w; requests := requests w |}.

(** *** Primitive effects *)

(** [dt.datetime.now().astimezone()] *)
Definition now : M World Z :=
  fun w => (inr (clock w (clock_reads w)), set_clock_reads (S (clock_reads w)) w).

(** [time.sleep(seconds)]: every later reading of the clock is that much
    further on. *)
Definition sleep (seconds : Z) : M World unit :=
  modify (fun w => set_clock (fun k => clock w k + seconds * 1000000000) w).

(** [log.info], [log.warning], [log.error], [log.critical] *)
Definition log_record (lvl : LogLevel) (msg : string) : M World unit :=
  modify (fun w => set_log (log w ++ [(lvl, msg)]) w).

(** One call of the client: the request is sent and answered. *)
Definition send {A : Type} (req : Request) (answer : list Request -> exn + A) : M World A :=
  fun w => (answer (requests w), set_requests (req :: requests w) w).

(** A method of a queue item runs on the item ([self]) and the world. *)
Definition ItemState : Type := QueueItem * World.

Definition lift_world {A : Type} (m : M World A) : M ItemState A :=
  fun s => let (r, w') := m (snd s) in (r, (fst s, w')).

Definition self : M ItemState QueueItem := fun s => (inr (fst s), s).

Definition set_self (f : QueueItem -> QueueItem) : M ItemState unit :=
  fun s => (inr tt, (f (fst s), snd s)).

(** ** QueueItem (priority_queue/models/queue.py) *)

(** [QueueItem.get_status]; [pd.isna] holds of [None] and [NaT]. *)
Definition get_status (it : QueueItem) : QueueItemStatus.t :=
  if negb (bool_decide (error_timestamp it = None)) then QueueItemStatus.HAS_ERROR
  else if negb (bool_decide (completed_timestamp it = None)) then QueueItemStatus.COMPLETED
  else if negb (bool_decide (submitted_timestamp it = None)) then QueueItemStatus.SUBMITTED
  else if negb (bool_decide (cancelled_timestamp it = None)) then QueueItemStatus.CANCELED
  else QueueItemStatus.IS_WAITING.

(** [status in [...]] *)
Definition status_in (s : QueueItemStatus.t) (l : list QueueItemStatus.t) : bool :=
  existsb (QueueItemStatus.eqb s) l.

(** [QueueItem.error] *)
Definition error (message : option string) : M ItemState unit :=
  it <- self ;;
  lift_world (log_record WARNING ("Error generated for job " ++ uid it ++ ".")) ;;;
  match message with
  | Some m => lift_world (log_record ERROR m)
  | None => ret tt
  end ;;;
  t <- lift_world now ;;
  set_self (set_error_timestamp (Some t)).

(** [QueueItem.erase]: [unlink(missing_ok=True)] *)
Definition erase : M ItemState unit :=
  it <- self ;;
  lift_world (modify (fun w => set_payload_files (delete (payload_link it) (payload_files w)) w)).

(** [QueueItem.store_payload] *)
Definition store_payload : M ItemState unit :=
  it <- self ;;
  if status_in (get_status it) [QueueItemStatus.COMPLETED; QueueItemStatus.HAS_ERROR]
  then ret tt
  else match payload it with
       | None => error (Some ("The job " ++ uid it ++ " had a None payload."))
       | Some p =>
           erase ;;;
           lift_world (modify (fun w =>
             set_payload_files (<[payload_link it := to_dict p]> (payload_files w)) w))
       end.

(** [QueueItem.cancel] *)
Definition cancel : M ItemState unit :=
  it <- self ;;
  if negb (QueueItemStatus.eqb (get_status it) QueueItemStatus.IS_WAITING)
  then raise (ValueError ("Cannot cancel a job that is not in the WAITING state ("
                          ++ uid it ++ ")."))
  else t <- lift_world now ;;
       set_self (set_cancelled_timestamp (Some t)).

(** [QueueItem.update] *)
Definition update (name' : option string) (priority' : option Z)
    (cancel' : option bool) (payload' : option TomtomJob) : M ItemState unit :=
  it <- self ;;
  if status_in (get_status it)
       [QueueItemStatus.COMPLETED; QueueItemStatus.HAS_ERROR; QueueItemStatus.SUBMITTED]
  then raise (ValueError ("Cannot update the queued item because it has the status "
                          ++ QueueItemStatus.str (get_status it) ++ "."))
  else if bool_decide (name' = None) && bool_decide (priority' = None)
          && bool_decide (payload' = None) && bool_decide (cancel' = None)
  then raise (ValueError
    "At least one attribute should be updated. Otherwise just do not call the update method!")
  else
    t <- lift_world now ;;
    set_self (set_updated_timestamp (Some t)) ;;;
    match name' with Some n => set_self (set_name n) | None => ret tt end ;;;
    match priority' with Some p => set_self (set_priority p) | None => ret tt end ;;;
    match payload' with
    | Some p => set_self (set_payload (Some p)) ;;; store_payload
    | None => ret tt
    end ;;;
    match cancel' with
    | Some true => cancel
    | Some false => set_self (set_cancelled_timestamp None)
    | None => ret tt
    end.

(** [str.lower] on the ASCII letters *)
Definition lower_ascii (c : Ascii.ascii) : Ascii.ascii :=
  let n := Ascii.nat_of_ascii c in
  if (Nat.leb 65 n && Nat.leb n 90)%bool then Ascii.ascii_of_nat (n + 32) else c.

Fixpoint lower (s : string) : string :=
  match s with
  | EmptyString => EmptyString
  | String c s' => String (lower_ascii c) (lower s')
  end.

(** [isinstance(self.payload, cls)] *)
Definition isinstance (p : TomtomJob) (cls : JobClass) : bool :=
  JobClass_eqb (job_class p) cls.

(** [QueueItem.submit] *)
Definition submit (client : TomtomClient) : M ItemState unit :=
  it <- self ;;
  if negb (QueueItemStatus.eqb (get_status it) QueueItemStatus.IS_WAITING)
  then raise (ValueError ("To be submitted, the status of job " ++ uid it
                          ++ " should be WAITING, not "
                          ++ QueueItemStatus.str (get_status it) ++ "."))
  else match payload it with
  | None => raise (ValueError "The payload can't be None for submitting the job!")
  | Some p =>
      tomtom_api <-
        (if isinstance p TomtomRouteJob
         then ret (fun job => send (PostRouteAnalysis job)
                                (fun h => post_job_route_analysis client h job))
         else if isinstance p TomtomAreaJob
         then ret (fun job => send (PostAreaAnalysis job)
                                (fun h => post_job_area_analysis client h job))
         else raise (ValueError ("The report type is not valid ("
                                 ++ default "None" (report_type it) ++ ")."))) ;;
      t <- lift_world now ;;
      set_self (set_submitted_timestamp (Some t)) ;;;
      response <- lift_world (tomtom_api p) ;;
      set_self (set_tomtom_job_id (ra_job_id response)) ;;;
      if String.eqb (lower (ra_response_status response)) "error"
      then error (Some (String.concat "; " (ra_messages response)))
      else ret tt
  end.

(** [QueueItem.complete] *)
Definition complete (client : TomtomClient) : M ItemState unit :=
  it <- self ;;
  if negb (QueueItemStatus.eqb (get_status it) QueueItemStatus.SUBMITTED)
  then raise (ValueError ("To be completed, the status of job " ++ uid it
                          ++ " should be SUBMITTED, not "
                          ++ QueueItemStatus.str (get_status it) ++ "."))
  else
    t <- lift_world now ;;
    set_self (set_completed_timestamp (Some t)) ;;;
    info <- lift_world (send (GetStatus (tomtom_job_id it))
                          (fun h => status client h (tomtom_job_id it))) ;;
    (if negb (TomtomJobState.eqb (rs_job_state info) TomtomJobState.DONE)
     then error (Some ("The job " ++ uid it ++ " has been marked by tomtom as "
                       ++ TomtomJobState.name (rs_job_state info)))
     else ret tt) ;;;
    erase.

(** [config.path.home / 'payloads' / f'{uid}.json'] *)
Definition payload_path (rt : Runtime) (uid : string) : string :=
  home rt ++ "/payloads/" ++ uid ++ ".json".

(** [TomtomJob.md5(salt)]: the digest of the job's JSON followed by [salt] *)
Definition md5 (rt : Runtime) (p : TomtomJob) (salt : string) : string :=
  md5_hexdigest rt (to_dict p ++ salt).

(** [QueueItem.__init__].  [uid or payload.md5(name)] takes the digest when
    [uid] is [None] or empty; the payload file is written when it is not
    there yet. *)
Definition QueueItem_init (rt : Runtime) (name : string) (payload : option TomtomJob)
    (priority : Z) (created_timestamp : Z) (uid : option string)
    (report_type : option string)
    (updated_timestamp submitted_timestamp completed_timestamp
       cancelled_timestamp error_timestamp : option Z)
    (tomtom_job_id : option Z) : M World QueueItem :=
  let digest : M World string :=
    match payload with
    | Some p => ret (md5 rt p name)
    | None => raise (AttributeError "'NoneType' object has no attribute 'md5'")
    end in
  uid' <- match uid with
          | Some u => if String.eqb u EmptyString then digest else ret u
          | None => digest
          end ;;
  let it := {| uid := uid'; name := name;
               report_type := match payload with
                              | None => report_type
                              | Some p => Some (class_name (job_class p))
                              end;
               payload := payload; priority := priority;
               created_timestamp := created_timestamp;
               updated_timestamp := updated_timestamp;
               submitted_timestamp := submitted_timestamp;
               completed_timestamp := completed_timestamp;
               cancelled_timestamp := cancelled_timestamp;
               error_timestamp := error_timestamp;
               tomtom_job_id := tomtom_job_id;
               payload_link := payload_path rt uid' |} in
  fun w =>
    match payload_files w !! payload_link it with
    | Some _ => (inr it, w)
    | None => match store_payload (it, w) with
              | (inl e, s) => (inl e, snd s)
              | (inr _, s) => (inr (fst s), snd s)
              end
    end.

(** [QueueItem.new]: [cls(name, payload, priority)], every other argument
    at its default; the default of [created_timestamp] is the value computed
    when the class was defined. *)
Definition QueueItem_new (rt : Runtime) (name : string) (payload : TomtomJob)
    (priority : Z) : M World QueueItem :=
  QueueItem_init rt name (Some payload) priority (default_created_timestamp rt)
    None None None None None None None None.

(** [QueueItem.from_dict] applied to a record of the dataframe: the class
    is chosen from the [report_type] column, the payload is decoded from the
    file at the row's [payload_link] and is [None] when there is no such
    file; what the decoder raises is not caught. *)
Definition QueueItem_from_dict (rt : Runtime) (row : Row) : M World QueueItem :=
  report_class <-
    (if String.eqb (r_report_type row) "TomtomRouteJob" then ret TomtomRouteJob
     else if String.eqb (r_report_type row) "TomtomAreaJob" then ret TomtomAreaJob
     else raise (ValueError ("Unknown report type " ++ String (Ascii.ascii_of_nat 34)
                             (r_report_type row) ++ String (Ascii.ascii_of_nat 34) "."))) ;;
  w <- get ;;
  payload <- match payload_files w !! r_payload_link row with
             | None => ret None
             | Some d => if from_dict_ok rt report_class d
                         then ret (Some {| job_class := report_class; to_dict := d |})
                         else raise (from_dict_error rt report_class d)
             end ;;
  QueueItem_init rt (r_name row) payload (r_priority row) (r_created_timestamp row)
    (Some (r_uid row)) (Some (r_report_type row))
    (r_updated_timestamp row) (r_submitted_timestamp row) (r_completed_timestamp row)
    (r_cancelled_timestamp row) (r_error_timestamp row) (r_tomtom_job_id row).

(** Run a method on an item object and hand the (mutated) object back. *)
Definition on_item {A : Type} (it : QueueItem) (m : M ItemState A) : M World QueueItem :=
  fun w => match m (it, w) with
           | (inl e, s) => (inl e, snd s)
           | (inr _, s) => (inr (fst s), snd s)
           end.

(** ** PriorityQueueDB (priority_queue/models/database.py)

    [_force_col_types] converts the six timestamp columns with
    [pd.to_datetime]; on the records of this model it changes nothing. *)

(** [PriorityQueueDB.read] *)
Definition read : M World unit :=
  fun w => match db_file w with
           | NoFile => (inr tt, set_df [] w)
           | Parquet rows => (inr tt, set_df rows w)
           | Unreadable why => (inl (OSError why), w)
           end.

(** Modelled from the spec: utils/singleton.py ([SingletonMeta]) is not part
    of the sources at hand; the store is a process-wide singleton, so
    [PriorityQueueDB()] builds the object (and reads the file) the first time
    and returns the same object afterwards. *)
Definition PriorityQueueDB_instance : M World unit :=
  w <- get ;;
  if db_instantiated w then ret tt
  else read ;;; modify (set_db_instantiated true).

(** [df.drop_duplicates(subset=['uid'], keep='first')]; [seen] holds the
    uids of the records before. *)
Fixpoint drop_duplicates_from (seen : list string) (rows : list Row) : list Row :=
  match rows with
  | [] => []
  | r :: rs => if bool_decide (r_uid r ∈ seen) then drop_duplicates_from seen rs
               else r :: drop_duplicates_from (r_uid r :: seen) rs
  end.

Definition drop_duplicates (rows : list Row) : list Row := drop_duplicates_from [] rows.

(** [PriorityQueueDB.write] *)
Definition write : M World unit :=
  w0 <- get ;;
  let current_df := df w0 in
  read ;;;
  w1 <- get ;;
  let merged := drop_duplicates (current_df ++ df w1) in
  modify (set_df merged) ;;;
  modify (set_db_file NoFile) ;;;
  modify (set_db_file (Parquet merged)).

(** The record [add] builds from the attributes of an item. *)
Definition row_of_item (it : QueueItem) : Row :=
  {| r_uid := uid it; r_name := name it;
     r_report_type := payload_class_name (payload it);
     r_payload_link := payload_link it; r_priority := priority it;
     r_created_timestamp := created_timestamp it;
     r_updated_timestamp := updated_timestamp it;
     r_submitted_timestamp := submitted_timestamp it;
     r_completed_timestamp := completed_timestamp it;
     r_cancelled_timestamp := cancelled_timestamp it;
     r_error_timestamp := error_timestamp it;
     r_tomtom_job_id := tomtom_job_id it |}.

(** [PriorityQueueDB.add] *)
Definition add (item : QueueItem) : M World unit :=
  modify (fun w => set_df (df w ++ [row_of_item item]) w).

(** The order of [sort_values(['priority', 'created_timestamp'],
    ascending=[False, True])]: [a] may stand before [b]. *)
Definition row_leb (a b : Row) : bool :=
  (r_priority b <? r_priority a)
  || ((r_priority a =? r_priority b) && (r_created_timestamp a <=? r_created_timestamp b)).

(** The sort on several columns is stable: a record goes behind the records
    it may not precede and behind its equals. *)
Fixpoint insert_row (x : Row) (sorted : list Row) : list Row :=
  match sorted with
  | [] => [x]
  | y :: ys => if row_leb y x then y :: insert_row x ys else x :: y :: ys
  end.

Definition sort_values (rows : list Row) : list Row :=
  fold_left (fun acc r => insert_row r acc) rows [].

(** The slice [l[:n]] *)
Definition slice_to {A : Type} (l : list A) (n : Z) : list A :=
  if 0 <=? n then take (Z.to_nat n) l
  else take (length l - Z.to_nat (- n)) l.

(** The mask of [get_next]: the four columns are null. *)
Definition is_next_row (r : Row) : bool :=
  bool_decide (r_submitted_timestamp r = None)
  && bool_decide (r_completed_timestamp r = None)
  && bool_decide (r_cancelled_timestamp r = None)
  && bool_decide (r_error_timestamp r = None).

(** [PriorityQueueDB.get_next] *)
Definition get_next (rt : Runtime) (n : Z) : M World (list QueueItem) :=
  w <- get ;;
  let next_items := sort_values (filter (fun r => is_next_row r = true) (df w)) in
  map_M (QueueItem_from_dict rt) (slice_to next_items n).

(** [PriorityQueueDB.get_filtered_items] called with [status] only, as the
    daemon does: without the other filters the query is empty and every
    record is turned into an item before the statuses are compared. *)
Definition get_filtered_items (rt : Runtime) (status : list QueueItemStatus.t)
    : M World (list QueueItem) :=
  w <- get ;;
  if (length (df w) <? 1)%nat then ret []
  else
    items <- map_M (QueueItem_from_dict rt) (df w) ;;
    ret (filter (fun i => ((length status <? 1)%nat
                           || status_in (get_status i) status) = true) items).

(** [PriorityQueueDB.update] *)
Definition db_update (items : list QueueItem) (force_write : bool) : M World unit :=
  let uids := map uid items in
  modify (fun w => set_df (filter (fun r => r_uid r ∉ uids) (df w)) w) ;;;
  for_each items add ;;;
  if force_write then write else ret tt.

(** ** The admin functions (priority_queue/lib.py) *)

(** [priority_queue_add_job] *)
Definition priority_queue_add_job (rt : Runtime) (name : string) (data : TomtomJob)
    (priority : Z) : M World unit :=
  queue_item <- QueueItem_new rt name data priority ;;
  PriorityQueueDB_instance ;;;
  add queue_item ;;;
  write.

(** [priority_queue_list_next] *)
Definition priority_queue_list_next (rt : Runtime) (n : Z) : M World (list QueueItem) :=
  PriorityQueueDB_instance ;;;
  get_next rt n.

(** ** The daemon (priority_queue/models/daemon.py) *)

(** The states counted as in progress. *)
Definition in_progress_states : list TomtomJobState.t :=
  [TomtomJobState.NEW; TomtomJobState.MAPMATCHED; TomtomJobState.MAPMATCHING;
   TomtomJobState.READING_GEOBASE; TomtomJobState.CALCULATIONS;
   TomtomJobState.SCHEDULED].

(** [str] of an optional integer *)
Definition str_opt_int (x : option Z) : string :=
  match x with
  | Some i => pretty i
  | None => "None"
  end.

(** [j.tomtom_job_id not in tomtom_job_in_progress_ids] *)
Definition not_in_progress (ids : list Z) (j : QueueItem) : bool :=
  match tomtom_job_id j with
  | Some i => negb (existsb (Z.eqb i) ids)
  | None => true
  end.

(** The body of the loop of step 1 (lines 75-77), for one item; the object,
    changed in place, is what the list holds afterwards. *)
Definition complete_and_log (client : TomtomClient) (item : QueueItem) : M World QueueItem :=
  item' <- on_item item (complete client) ;;
  log_record INFO ("Completed item " ++ uid item' ++ " (tomtom job "
                   ++ str_opt_int (tomtom_job_id item') ++ ")") ;;;
  ret item'.

(** Step 1 of the body (lines 63-78): the items tagged as submitted here
    that the remote service no longer reports as in progress are completed
    one after the other, then written back. *)
Definition complete_old_submitted (rt : Runtime) (client : TomtomClient)
    (in_progress_jobs : TomtomResponseSearchJobs) : M World unit :=
  let tomtom_job_in_progress_ids := map ji_job_id (content in_progress_jobs) in
  submitted_items <- get_filtered_items rt [QueueItemStatus.SUBMITTED] ;;
  let should_be_complete_items :=
    filter (fun j => not_in_progress tomtom_job_in_progress_ids j = true) submitted_items in
  completed_items <- map_M (complete_and_log client) should_be_complete_items ;;
  db_update completed_items true.

(** The body of the loop of step 2 (lines 82-84), for one item. *)
Definition submit_and_store (client : TomtomClient) (item : QueueItem) : M World unit :=
  item' <- on_item item (submit client) ;;
  log_record INFO ("Submitted item " ++ uid item' ++ " as tomtom job "
                   ++ str_opt_int (tomtom_job_id item') ++ ".") ;;;
  db_update [item'] true.

(** Step 2 of the body (lines 80-84): the next items are submitted and
    written back one by one. *)
Definition submit_next (rt : Runtime) (client : TomtomClient) (n : Z) : M World unit :=
  next_items <- get_next rt (N_CONCURRENT_JOB_IN_PROGRESS - n) ;;
  for_each next_items (submit_and_store client).

(** The body of the [try] statement (lines 56-84). *)
Definition tick_body (rt : Runtime) (client : TomtomClient) : M World unit :=
  in_progress_jobs <- send (SearchJobs in_progress_states)
                        (fun h => search_jobs client h in_progress_states) ;;
  let n := total_elements in_progress_jobs in
  if n <? N_CONCURRENT_JOB_IN_PROGRESS then
    log_record INFO ("There are " ++ pretty (N_CONCURRENT_JOB_IN_PROGRESS - n)
                     ++ " available spots on tomtom side.") ;;;
    complete_old_submitted rt client in_progress_jobs ;;;
    submit_next rt client n
  else ret tt.

(** One iteration of [while True] (lines 52-88): after the sleep the store
    is read again, then the body runs under [except Exception]. *)
Definition tick (rt : Runtime) (client : TomtomClient) : M World unit :=
  sleep (loop_duration rt) ;;;
  read ;;;
  try_except_Exception (tick_body rt client)
    (fun e => log_record CRITICAL (str_exn e)).

(** [PriorityQueueDaemon.run], cut after [ticks] iterations: the store
    object is built, then the loop runs.  A result [inl e] means that the
    exception [e] left the loop, which ends the daemon. *)
Fixpoint daemon_loop (rt : Runtime) (client : TomtomClient) (ticks : nat) : M World unit :=
  match ticks with
  | O => ret tt
  | S k => tick rt client ;;; daemon_loop rt client k
  end.

Definition run (rt : Runtime) (client : TomtomClient) (ticks : nat) : M World unit :=
  PriorityQueueDB_instance ;;;
  daemon_loop rt client ticks.

(** ** Concrete surroundings used in the examples *)

Module Examples.

(** A runtime whose digest is the text itself, imported at instant 500;
    every text decodes, except the text [{}], which lacks the keys. *)
Definition rt : Runtime :=
  {| home := "/home"; md5_hexdigest := fun s => s;
     from_dict_ok := fun _ d => negb (String.eqb d "{}");
     from_dict_error := fun _ _ => KeyError "'jobName'";
     from_dict_error_is_Exception := fun _ _ => eq_refl;
     default_created_timestamp := 500; loop_duration := 60 |}.

(** [DummyTomtomClient] of client.py; it does not override
    [post_job_traffic_density], whose request it refuses. *)
Definition DummyTomtomClient : TomtomClient :=
  {| post_job_route_analysis := fun _ _ =>
       inr {| ra_response_status := "OK";
              ra_messages := ["This is a dummy response"]; ra_job_id := Some 1 |};
     post_job_area_analysis := fun _ _ =>
       inr {| ra_response_status := "OK";
              ra_messages := ["This is a dummy response"]; ra_job_id := Some 1 |};
     post_job_traffic_density := fun _ _ =>
       inl (Exception "This client is not meant to send requests.");
     status := fun _ _ =>
       inr {| rs_job_id := -1; rs_job_state := TomtomJobState.DONE;
              rs_response_status := "OK" |};
     search_jobs := fun _ _ =>
       inr {| content := [{| ji_job_id := 1; ji_state := TomtomJobState.DONE |}];
              total_elements := 1 |} |}.

(** A client that answers every request; the search reports [n] jobs in
    progress with the identifiers [ids], the status endpoint the state
    [st] unless the identifier is in [failing], for which it times out. *)
Definition client_with (n : Z) (ids : list Z) (st : TomtomJobState.t)
    (failing : list Z) : TomtomClient :=
  {| post_job_route_analysis := fun _ _ =>
       inr {| ra_response_status := "OK"; ra_messages := []; ra_job_id := Some 7 |};
     post_job_area_analysis := fun _ _ =>
       inr {| ra_response_status := "OK"; ra_messages := []; ra_job_id := Some 8 |};
     post_job_traffic_density := fun _ _ =>
       inr {| ra_response_status := "OK"; ra_messages := []; ra_job_id := Some 9 |};
     status := fun _ i =>
       match i with
       | Some j => if existsb (Z.eqb j) failing then inl (Exception "timeout")
                   else inr {| rs_job_id := j; rs_job_state := st;
                               rs_response_status := "OK" |}
       | None => inl (Exception "HTTP400")
       end;
     search_jobs := fun _ _ =>
       inr {| content := map (fun i => {| ji_job_id := i;
                                          ji_state := TomtomJobState.CALCULATIONS |}) ids;
              total_elements := n |} |}.

(** A fresh process on an empty home folder; the clock starts at 1000 and
    a reading takes one nanosecond. *)
Definition w0 : World :=
  {| db_instantiated := false; df := []; db_file := NoFile; payload_files := ∅;
     clock := fun k => 1000 + Z.of_nat k; clock_reads := 0; log := [];
     requests := [] |}.

Definition route_job : TomtomJob := {| job_class := TomtomRouteJob; to_dict := "route" |}.
Definition area_job : TomtomJob := {| job_class := TomtomAreaJob; to_dict := "area" |}.
Definition density_job : TomtomJob :=
  {| job_class := TomtomTrafficDensityJob; to_dict := "density" |}.

(** A record of the table with the given lifecycle columns. *)
Definition row (u : string) (cls : string) (prio created : Z)
    (submitted cancelled : option Z) (job_id : option Z) : Row :=
  {| r_uid := u; r_name := u; r_report_type := cls;
     r_payload_link := payload_path rt u; r_priority := prio;
     r_created_timestamp := created; r_updated_timestamp := None;
     r_submitted_timestamp := submitted; r_completed_timestamp := None;
     r_cancelled_timestamp := cancelled; r_error_timestamp := None;
     r_tomtom_job_id := job_id |}.

(** An item object with the given lifecycle attributes. *)
Definition item (u : string) (p : option TomtomJob) (prio created : Z)
    (submitted cancelled : option Z) (job_id : option Z) : QueueItem :=
  {| uid := u; name := u; report_type := Some (payload_class_name p);
     payload := p; priority := prio; created_timestamp := created;
     updated_timestamp := None; submitted_timestamp := submitted;
     completed_timestamp := None; cancelled_timestamp := cancelled;
     error_timestamp := None; tomtom_job_id := job_id;
     payload_link := payload_path rt u |}.

(** The world [w0] with a table on disk and payload files. *)
Definition on_disk (rows : list Row) (files : list (string * string)) : World :=
  set_payload_files (list_to_map files) (set_db_file (Parquet rows) w0).

End Examples.

(** ** Definitions used to state the properties *)

(** The table of the specification, read from top to bottom on the four
    lifecycle timestamps. *)
Definition status_projection (error_ts completed_ts submitted_ts cancelled_ts : option Z)
    : QueueItemStatus.t :=
  match error_ts, completed_ts, submitted_ts, cancelled_ts with
  | Some _, _, _, _ => QueueItemStatus.HAS_ERROR
  | None, Some _, _, _ => QueueItemStatus.COMPLETED
  | None, None, Some _, _ => QueueItemStatus.SUBMITTED
  | None, None, None, Some _ => QueueItemStatus.CANCELED
  | None, None, None, None => QueueItemStatus.IS_WAITING
  end.

(** The status a record of the table stands for. *)
Definition row_status (r : Row) : QueueItemStatus.t :=
  status_projection (r_error_timestamp r) (r_completed_timestamp r)
    (r_submitted_timestamp r) (r_cancelled_timestamp r).

(** An argument of [update] is given. *)
Definition some_argument (name' : option string) (priority' : option Z)
    (cancel' : option bool) (payload' : option TomtomJob) : Prop :=
  name' <> None \/ priority' <> None \/ cancel' <> None \/ payload' <> None.

(** The call returns normally. *)
Definition returns {S A : Type} (m : M S A) (s : S) : Prop :=
  exists a s', m s = (inr a, s').
(** The endpoint [submit] picks for a payload of class [cls]: the request
    it sends and the operation of the client that answers it.  There is
    none for a traffic-density job. *)
Definition submit_endpoint (client : TomtomClient) (cls : JobClass)
    : option ((TomtomJob -> Request)
              * (list Request -> TomtomJob -> exn + TomtomResponseAnalysis)) :=
  match cls with
  | TomtomRouteJob => Some (PostRouteAnalysis, post_job_route_analysis client)
  | TomtomAreaJob => Some (PostAreaAnalysis, post_job_area_analysis client)
  | TomtomTrafficDensityJob => None
  end.

(** The table [read] finds on disk, when the file can be read. *)
Definition stored_rows (f : DbFile) : option (list Row) :=
  match f with
  | NoFile => Some []
  | Parquet rows => Some rows
  | Unreadable _ => None
  end.

(** The first record with uid [u], going down the table. *)
Fixpoint first_with_uid (u : string) (rows : list Row) : option Row :=
  match rows with
  | [] => None
  | r :: rs => if bool_decide (r_uid r = u) then Some r else first_with_uid u rs
  end.

(** The records with uid [u]. *)
Definition rows_with_uid (u : string) (rows : list Row) : list Row :=
  filter (fun r => r_uid r = u) rows.

(** What [priority_queue_update_job] does to rename the item that is next:
    the item is updated, then written back with [db.update([item], True)]. *)
Definition rename_next (rt : Runtime) (new_name : string) : M World unit :=
  items <- priority_queue_list_next rt 1 ;;
  match items with
  | item :: _ =>
      item' <- on_item item (update (Some new_name) None None None) ;;
      db_update [item'] true
  | [] => ret tt
  end.

(** [m] leaves the observation [f] of the state as it was, whether it
    returns or raises. *)
Definition unchanged {S X A : Type} (f : S -> X) (m : M S A) : Prop :=
  forall s, f (snd (m s)) = f s.

(** The submission requests. *)
Definition is_post (q : Request) : bool :=
  match q with
  | PostRouteAnalysis _ | PostAreaAnalysis _ | PostTrafficDensity _ => true
  | GetStatus _ | SearchJobs _ => false
  end.

(** The submission requests sent so far, latest first. *)
Definition posts (w : World) : list Request :=
  filter (fun q => is_post q = true) (requests w).

(** The number of submission requests sent between [w] and [w']. *)
Definition new_submissions (w w' : World) : nat :=
  (length (posts w') - length (posts w))%nat.

(** The table in memory and the file of the store. *)
Definition store (w : World) : list Row * DbFile := (df w, db_file w).

(** An observation of the world, seen from a method of an item. *)
Definition on_world {X : Type} (f : World -> X) : ItemState -> X :=
  fun s => f (snd s).

(** The request [submit] sends for an item, when it sends one. *)
Definition post_request_of (it : QueueItem) : option Request :=
  match payload it with
  | Some p => match job_class p with
              | TomtomRouteJob => Some (PostRouteAnalysis p)
              | TomtomAreaJob => Some (PostAreaAnalysis p)
              | TomtomTrafficDensityJob => None
              end
  | None => None
  end.

(** [a] may be taken before [b]: its priority is higher, or the priorities
    are equal and it was not created later. *)
Definition item_before (a b : QueueItem) : Prop :=
  priority b < priority a
  \/ (priority a = priority b /\ created_timestamp a <= created_timestamp b).

(** The order of the table used by [get_next], as a relation. *)
Definition row_le (a b : Row) : Prop := row_leb a b = true.

(** The item [it] was built from the record [r]: it has its name, priority
    and creation timestamp, and it is IS_WAITING, or its payload file was
    missing and loading it has put it in HAS_ERROR. *)
Definition built_from_waiting (r : Row) (it : QueueItem) : Prop :=
  name it = r_name r
  /\ priority it = r_priority r
  /\ created_timestamp it = r_created_timestamp r
  /\ (get_status it = QueueItemStatus.IS_WAITING
      \/ (payload it = None /\ get_status it = QueueItemStatus.HAS_ERROR)).




(** The item [QueueItem.new] builds. *)
Definition new_item (rt : Runtime) (nm : string) (job : TomtomJob) (prio : Z) : QueueItem :=
  {| uid := md5 rt job nm; name := nm;
     report_type := Some (class_name (job_class job));
     payload := Some job; priority := prio;
     created_timestamp := default_created_timestamp rt;
     updated_timestamp := None; submitted_timestamp := None;
     completed_timestamp := None; cancelled_timestamp := None;
     error_timestamp := None; tomtom_job_id := None;
     payload_link := payload_path rt (md5 rt job nm) |}.

(** An item as the queue keeps it: its payload is loaded and is a route or
    an area job, its uid is not empty, its payload link and report type are
    the ones the constructor derives from the uid and the payload. *)
Definition well_kept (rt : Runtime) (it : QueueItem) : Prop :=
  exists p,
    payload it = Some p
    /\ (job_class p = TomtomRouteJob \/ job_class p = TomtomAreaJob)
    /\ uid it <> EmptyString
    /\ payload_link it = payload_path rt (uid it)
    /\ report_type it = Some (class_name (job_class p)).

(** [PriorityQueueDB.empty] ([_force_col_types] changes nothing on an empty
    table either). *)
Definition empty : M World unit := modify (set_df []).

(** The file of the store can be read. *)
Definition readable (w : World) : Prop := stored_rows (db_file w) <> None.

(** The client raises nothing but [Exception]s (timeouts, refused
    requests), that is, the process is neither interrupted nor asked to
    exit while a request is under way. *)
Definition raises_only_Exceptions (client : TomtomClient) : Prop :=
  (forall h j e, post_job_route_analysis client h j = inl e -> is_Exception e = true)
  /\ (forall h j e, post_job_area_analysis client h j = inl e -> is_Exception e = true)
  /\ (forall h i e, status client h i = inl e -> is_Exception e = true)
  /\ (forall h st e, search_jobs client h st = inl e -> is_Exception e = true).

(** [m], started in a state of [I], ends in a state of [I], and what it
    raises, if anything, is an [Exception]. *)
Definition contained {S A : Type} (I : S -> Prop) (m : M S A) : Prop :=
  forall s, I s ->
    I (snd (m s)) /\ forall e, fst (m s) = inl e -> is_Exception e = true.

(** The table in memory is the one in the file and no uid occurs twice in
    it: the state [write] leaves the store in. *)
Definition synchronised (w : World) : Prop :=
  db_file w = Parquet (df w) /\ NoDup (map r_uid (df w)).

(** ** TomtomJobState.from_str (traffic_stats/models/status.py) *)

(** [str.upper] on the ASCII letters *)
Definition upper_ascii (c : Ascii.ascii) : Ascii.ascii :=
  let n := Ascii.nat_of_ascii c in
  if (Nat.leb 97 n && Nat.leb n 122)%bool then Ascii.ascii_of_nat (n - 32) else c.

Fixpoint upper (s : string) : string :=
  match s with
  | EmptyString => EmptyString
  | String c s' => String (upper_ascii c) (upper s')
  end.

(** [[s for s in TomtomJobState]]: the members in the order of their
    definition. *)
Definition TomtomJobState_members : list TomtomJobState.t :=
  [TomtomJobState.NEW; TomtomJobState.SCHEDULED; TomtomJobState.MAPMATCHING;
   TomtomJobState.MAPMATCHED; TomtomJobState.READING_GEOBASE;
   TomtomJobState.CALCULATIONS; TomtomJobState.NEED_CONFIRMATION;
   TomtomJobState.DONE; TomtomJobState.ERROR; TomtomJobState.REJECTED;
   TomtomJobState.CANCELED; TomtomJobState.EXPIRED].

(** [TomtomJobState.from_str]; [str(s)] is the name of the class, a dot and
    the name of the member, so that [str(s).replace(f'{cls.__name__}.', '')]
    is the name of the member. *)
Definition TomtomJobState_from_str (status : string) : exn + TomtomJobState.t :=
  let status := upper status in
  let tomtom_status :=
    filter (fun s => status = TomtomJobState.name s) TomtomJobState_members in
  if negb (length tomtom_status =? 1)%nat
  then inl (ValueError ("The given status is invalid (" ++ status ++ ")"))
  else match tomtom_status with
       | s :: _ => inr s
       | [] => inl (Exception "list index out of range")
       end.

(** The text holds ASCII characters only. *)
Definition is_ascii (s : string) : bool :=
  forallb (fun c => Nat.ltb (Ascii.nat_of_ascii c) 128) (list_ascii_of_string s).

(** A record whose report type [QueueItem.from_dict] does not know. *)
Definition unknown_report_type (r : Row) : Prop :=
  r_report_type r <> "TomtomRouteJob" /\ r_report_type r <> "TomtomAreaJob".

(** ** Jobs (traffic_stats/models/jobs/base.py and route.py)

    The fields of a route job and its dictionary.  The roads, date ranges
    and time sets are the models of traffic_stats/models/geospatial.py and
    time.py; of these the jobs use [to_dict] and [from_dict] only, which
    the definitions below take as arguments.  [obj] is a JSON object and
    [float] a number. *)
Module Jobs.

(** traffic_stats/__init__.py *)
Definition MAX_ROAD_COUNT : nat := 20.
Definition MAX_DATE_RANGE_COUNT : nat := 24.
Definition MAX_TIME_SETS_COUNT : nat := 24.

(** The attributes of a [TomtomRouteJob] object. *)
Record TomtomRouteJob (float TomtomRoad TomtomDateRange TomtomTimeSet : Type) : Type := {
  job_name : string;
  routes : list TomtomRoad;
  date_ranges : list TomtomDateRange;
  time_sets : list TomtomTimeSet;
  distance_unit : string;
  accept_mode : option string;
  map_version : option float;
  average_sample_size_threshold : option Z
}.
Arguments job_name {_ _ _ _} _.
Arguments routes {_ _ _ _} _.
Arguments date_ranges {_ _ _ _} _.
Arguments time_sets {_ _ _ _} _.
Arguments distance_unit {_ _ _ _} _.
Arguments accept_mode {_ _ _ _} _.
Arguments map_version {_ _ _ _} _.
Arguments average_sample_size_threshold {_ _ _ _} _.

(** The dictionary of a route job, as [to_dict] builds it and [json.load]
    gives it back: each entry has the JSON type [to_dict] writes, [None]
    stands for a key that is absent, and the entries [acceptMode] and
    [mapVersion] may be present with the value [null].  [routes_entry] is
    the entry [routes]. *)
Record JobDict (obj float : Type) : Type := {
  jobName : option string;
  distanceUnit : option string;
  mapVersion : option (option float);
  acceptMode : option (option string);
  timeSets : option (list obj);
  averageSampleSizeThreshold : option Z;
  dateRanges : option (list obj);
  routes_entry : option (list obj)
}.
Arguments jobName {_ _} _.
Arguments distanceUnit {_ _} _.
Arguments mapVersion {_ _} _.
Arguments acceptMode {_ _} _.
Arguments timeSets {_ _} _.
Arguments averageSampleSizeThreshold {_ _} _.
Arguments dateRanges {_ _} _.
Arguments routes_entry {_ _} _.

(** [d[key]]; the exception carries the key. *)
Definition getitem {A : Type} (key : string) (entry : option A) : M unit A :=
  match entry with
  | Some a => ret a
  | None => raise (KeyError key)
  end.

(** The call of a function that returns or raises. *)
Definition call {A : Type} (r : exn + A) : M unit A := fun s => (r, s).

(** [v if v is not None], for the entries [to_dict] leaves out. *)
Definition if_not_None {A : Type} (v : option A) : option (option A) :=
  match v with
  | Some a => Some (Some a)
  | None => None
  end.

Section Models.
Context {obj float TomtomRoad TomtomDateRange TomtomTimeSet : Type}.
Variable TomtomRoad_to_dict : TomtomRoad -> obj.
Variable TomtomRoad_from_dict : obj -> exn + TomtomRoad.
Variable TomtomDateRange_to_dict : TomtomDateRange -> obj.
Variable TomtomDateRange_from_dict : obj -> exn + TomtomDateRange.
Variable TomtomTimeSet_to_dict : TomtomTimeSet -> obj.
Variable TomtomTimeSet_from_dict : obj -> exn + TomtomTimeSet.

(** [TomtomRouteJob.__init__], which ends with [TomtomJob.__init__]: the
    numbers of roads and date ranges are checked first, then the number of
    time sets, the distance unit and the accept mode.  The distance unit is
    kept in capital letters, the accept mode as it was given. *)
Definition TomtomRouteJob_init (job_name : string) (routes : list TomtomRoad)
    (date_ranges : list TomtomDateRange) (time_sets : list TomtomTimeSet)
    (distance_unit : string) (accept_mode : option string) (map_version : option float)
    (average_sample_size_threshold : option Z)
    : M unit (TomtomRouteJob float TomtomRoad TomtomDateRange TomtomTimeSet) :=
  (if (MAX_ROAD_COUNT <? length routes)%nat
   then raise (ValueError ("Impossible to query for more than " ++ pretty MAX_ROAD_COUNT
                           ++ " roads, (" ++ pretty (length routes) ++ " given)"))
   else ret tt) ;;;
  (if (MAX_DATE_RANGE_COUNT <? length date_ranges)%nat
   then raise (ValueError ("Impossible to query for more than "
                           ++ pretty MAX_DATE_RANGE_COUNT ++ " date range, ("
                           ++ pretty (length date_ranges) ++ " given)"))
   else ret tt) ;;;
  (if (MAX_TIME_SETS_COUNT <? length time_sets)%nat
   then raise (ValueError ("Impossible to query for more than "
                           ++ pretty MAX_TIME_SETS_COUNT ++ " time sets, ("
                           ++ pretty (length time_sets) ++ " given)"))
   else ret tt) ;;;
  (if negb (existsb (String.eqb (upper distance_unit)) ["KILOMETERS"; "MILES"])
   then raise (ValueError ("The given `distance_unit` is invalid ("
                           ++ distance_unit ++ ")"))
   else ret tt) ;;;
  (match accept_mode with
   | Some a =>
       if negb (existsb (String.eqb (upper a)) ["AUTO"; "MANUAL"])
       then raise (ValueError ("The given `accept_mode` is invalid (" ++ a ++ ")"))
       else ret tt
   | None => ret tt
   end) ;;;
  ret {| job_name := job_name; routes := routes; date_ranges := date_ranges;
         time_sets := time_sets; distance_unit := upper distance_unit;
         accept_mode := accept_mode; map_version := map_version;
         average_sample_size_threshold := average_sample_size_threshold |}.

(** [TomtomRouteJob.to_dict]: the dictionary of [TomtomJob.to_dict], from
    which the entries that are [None] have been removed, with the date
    ranges and the roads. *)
Definition TomtomRouteJob_to_dict
    (job : TomtomRouteJob float TomtomRoad TomtomDateRange TomtomTimeSet)
    : JobDict obj float :=
  {| jobName := Some (job_name job);
     distanceUnit := Some (distance_unit job);
     mapVersion := if_not_None (map_version job);
     acceptMode := if_not_None (accept_mode job);
     timeSets := Some (map TomtomTimeSet_to_dict (time_sets job));
     averageSampleSizeThreshold := average_sample_size_threshold job;
     dateRanges := Some (map TomtomDateRange_to_dict (date_ranges job));
     routes_entry := Some (map TomtomRoad_to_dict (routes job)) |}.

(** [TomtomRouteJob.from_dict]; the arguments of the call are evaluated
    from left to right. *)
Definition TomtomRouteJob_from_dict (dict_object : JobDict obj float)
    : M unit (TomtomRouteJob float TomtomRoad TomtomDateRange TomtomTimeSet) :=
  job_name <- getitem "jobName" (jobName dict_object) ;;
  rs <- getitem "routes" (routes_entry dict_object) ;;
  routes <- map_M (fun r => call (TomtomRoad_from_dict r)) rs ;;
  ds <- getitem "dateRanges" (dateRanges dict_object) ;;
  date_ranges <- map_M (fun d => call (TomtomDateRange_from_dict d)) ds ;;
  ts <- getitem "timeSets" (timeSets dict_object) ;;
  time_sets <- map_M (fun t => call (TomtomTimeSet_from_dict t)) ts ;;
  distance_unit <- getitem "distanceUnit" (distanceUnit dict_object) ;;
  accept_mode <- getitem "acceptMode" (acceptMode dict_object) ;;
  map_version <- getitem "mapVersion" (mapVersion dict_object) ;;
  TomtomRouteJob_init job_name routes date_ranges time_sets distance_unit accept_mode
    map_version (averageSampleSizeThreshold dict_object).

End Models.

End Jobs.



(** * Properties *)

(** ** The status projection *)

Lemma get_status_projection : forall it : QueueItem,
  get_status it = status_projection (error_timestamp it) (completed_timestamp it)
                    (submitted_timestamp it) (cancelled_timestamp it).
Proof.
  intros it. unfold get_status.
  destruct (error_timestamp it), (completed_timestamp it),
    (submitted_timestamp it), (cancelled_timestamp it); reflexivity.
Qed.

Lemma get_status_waiting_inv : forall it,
  get_status it = QueueItemStatus.IS_WAITING ->
  error_timestamp it = None /\ completed_timestamp it = None
  /\ submitted_timestamp it = None /\ cancelled_timestamp it = None.
Proof.
  intros it H. rewrite get_status_projection in H.
  destruct (error_timestamp it), (completed_timestamp it),
    (submitted_timestamp it), (cancelled_timestamp it); simpl in H;
    try discriminate; auto.
Qed.


Lemma get_status_canceled_inv : forall it,
  get_status it = QueueItemStatus.CANCELED ->
  error_timestamp it = None /\ completed_timestamp it = None
  /\ submitted_timestamp it = None /\ exists t, cancelled_timestamp it = Some t.
Proof.
  intros it H. rewrite get_status_projection in H.
  destruct (error_timestamp it), (completed_timestamp it),
    (submitted_timestamp it), (cancelled_timestamp it); simpl in H;
    try discriminate; eauto.
Qed.

(** C5. For every item, whatever combination of its timestamps is set,
    [get_status] is the projection of the specification applied to
    [error_ts], [completed_ts], [submitted_ts] and [cancelled_ts]: the
    status is a function of these four attributes alone.  Neither the item
    nor the record of the table holds a status, and the record written for
    an item stands for the status computed from the item. *)
Theorem get_status_is_projection : forall it : QueueItem,
  get_status it = status_projection (error_timestamp it) (completed_timestamp it)
                    (submitted_timestamp it) (cancelled_timestamp it)
  /\ row_status (row_of_item it) = get_status it.
Proof.
  intros it. split.
  - apply get_status_projection.
  - rewrite get_status_projection. reflexivity.
Qed.

(** ** Item operations *)

(** Unfolds the monadic code of the item methods down to the attributes. *)
Ltac run_item :=
  cbv beta iota zeta delta
    [update cancel store_payload erase error submit complete
     bind ret raise get modify self set_self lift_world now log_record send
     get_status status_in existsb QueueItemStatus.eqb negb orb andb fst snd
     bool_decide decide_rel option_eq_None_dec
     with_item_fields set_name set_payload set_priority set_updated_timestamp
     set_submitted_timestamp set_completed_timestamp set_cancelled_timestamp
     set_error_timestamp set_tomtom_job_id
     uid name report_type payload priority created_timestamp updated_timestamp
     submitted_timestamp completed_timestamp cancelled_timestamp error_timestamp
     tomtom_job_id payload_link
     with_world_fields set_db_instantiated set_df set_db_file set_payload_files
     set_clock_reads set_log set_requests set_clock
     db_instantiated df db_file payload_files clock clock_reads log requests].

Lemma update_refused_status : forall n p c pl it w,
  status_in (get_status it)
    [QueueItemStatus.COMPLETED; QueueItemStatus.HAS_ERROR; QueueItemStatus.SUBMITTED] = true ->
  update n p c pl (it, w) =
    (inl (ValueError ("Cannot update the queued item because it has the status "
                      ++ QueueItemStatus.str (get_status it) ++ ".")), (it, w)).
Proof.
  intros n p c pl it w H. unfold update, bind, self, raise. cbn [fst snd].
  rewrite H. reflexivity.
Qed.

Lemma update_refused_empty : forall it w,
  status_in (get_status it)
    [QueueItemStatus.COMPLETED; QueueItemStatus.HAS_ERROR; QueueItemStatus.SUBMITTED] = false ->
  update None None None None (it, w) =
    (inl (ValueError
       "At least one attribute should be updated. Otherwise just do not call the update method!"),
     (it, w)).
Proof.
  intros it w H. unfold update, bind, self, raise. cbn [fst snd].
  rewrite H. reflexivity.
Qed.

(** C10. [update] applies its changes one after the other and undoes
    nothing: called with [cancel=True] on an item whose status is CANCELED,
    possibly with a new name, priority or payload, it raises from the
    [cancel] step (which wants IS_WAITING), and the item it leaves has
    [updated_ts] set to the clock reading and carries the new name, the new
    priority and the new payload, whose file has been rewritten; the
    cancellation timestamp is the one it had. *)
Theorem update_no_rollback : forall (n : option string) (p : option Z)
    (pl : option TomtomJob) (it : QueueItem) (w : World),
  get_status it = QueueItemStatus.CANCELED ->
  exists it' w',
    update n p (Some true) pl (it, w)
      = (inl (ValueError ("Cannot cancel a job that is not in the WAITING state ("
                          ++ uid it ++ ").")), (it', w'))
    /\ updated_timestamp it' = Some (clock w (clock_reads w))
    /\ name it' = default (name it) n
    /\ priority it' = default (priority it) p
    /\ payload it' = match pl with Some x => Some x | None => payload it end
    /\ (forall x, pl = Some x -> payload_files w' !! payload_link it = Some (to_dict x))
    /\ cancelled_timestamp it' = cancelled_timestamp it
    /\ get_status it' = QueueItemStatus.CANCELED.
Proof.
  intros n p pl it w H.
  destruct (get_status_canceled_inv it H) as (He & Hc & Hs & t & Hx).
  destruct it as [u nm rtp pay pr cr up su co ca er j lnk]; simpl in *; subst.
  destruct n, p, pl; run_item; do 2 eexists; (split; [reflexivity|]);
    simpl; repeat split; try reflexivity; intros x Hx; inversion Hx; subst;
    apply lookup_insert_eq.
Qed.

Lemma refused_status_iff : forall it,
  status_in (get_status it)
    [QueueItemStatus.COMPLETED; QueueItemStatus.HAS_ERROR; QueueItemStatus.SUBMITTED] = false
  <-> (get_status it = QueueItemStatus.IS_WAITING \/ get_status it = QueueItemStatus.CANCELED).
Proof.
  intros it. destruct (get_status it); simpl; split; intros H;
    try discriminate; auto; destruct H; discriminate.
Qed.

(** C8, as the code has it.  [update] returns exactly when the status is
    IS_WAITING or CANCELED, an argument is given, and the call is not
    [cancel=True] on a CANCELED item.  It raises the illegal-transition
    error and changes nothing when the status is SUBMITTED, COMPLETED or
    HAS_ERROR, and the empty-update error when the status allows the update
    and no argument is given.  When it returns, [updated_ts] is the clock
    reading, [cancel=True] has set [cancelled_ts] to the next reading (the
    item is CANCELED), [cancel=False] has cleared it (the item is
    IS_WAITING), and without [cancel] it is untouched. *)
Theorem update_outcome : forall (n : option string) (p : option Z) (c : option bool)
    (pl : option TomtomJob) (it : QueueItem) (w : World),
  (returns (update n p c pl) (it, w)
     <-> ((get_status it = QueueItemStatus.IS_WAITING
           \/ get_status it = QueueItemStatus.CANCELED)
          /\ some_argument n p c pl
          /\ ~ (c = Some true /\ get_status it = QueueItemStatus.CANCELED)))
  /\ ((get_status it = QueueItemStatus.SUBMITTED
       \/ get_status it = QueueItemStatus.COMPLETED
       \/ get_status it = QueueItemStatus.HAS_ERROR) ->
      update n p c pl (it, w)
        = (inl (ValueError ("Cannot update the queued item because it has the status "
                            ++ QueueItemStatus.str (get_status it) ++ ".")), (it, w)))
  /\ ((get_status it = QueueItemStatus.IS_WAITING
       \/ get_status it = QueueItemStatus.CANCELED) ->
      n = None -> p = None -> c = None -> pl = None ->
      update n p c pl (it, w)
        = (inl (ValueError
             "At least one attribute should be updated. Otherwise just do not call the update method!"),
           (it, w)))
  /\ (forall it' w', update n p c pl (it, w) = (inr tt, (it', w')) ->
      updated_timestamp it' = Some (clock w (clock_reads w))
      /\ match c with
         | Some true => cancelled_timestamp it' = Some (clock w (S (clock_reads w)))
                        /\ get_status it' = QueueItemStatus.CANCELED
         | Some false => cancelled_timestamp it' = None
                         /\ get_status it' = QueueItemStatus.IS_WAITING
         | None => cancelled_timestamp it' = cancelled_timestamp it
         end).
Proof.
  intros n p c pl it w. unfold returns, some_argument.
  destruct it as [u nm rtp pay pr cr up su co ca er j lnk].
  destruct er as [er|], co as [co|], su as [su|], ca as [ca|];
    destruct n as [n|], p as [p|], c as [[|]|], pl as [pl|];
    (split; [ split;
              [ intros (a & s' & H); revert H; run_item; intros H;
                try discriminate H;
                (split; [ auto | split; [ auto 6 using (@eq_sym), (@eq_refl) | ] ]);
                try (intros [? ?]; discriminate);
                try (left; discriminate); try (right; left; discriminate);
                try (right; right; left; discriminate);
                try (right; right; right; discriminate)
              | intros (Hs & Ha & Hc); revert Hs Ha Hc; run_item; intros Hs Ha Hc;
                try (destruct Hs; discriminate);
                try (exfalso; apply Hc; split; reflexivity);
                try (exfalso; destruct Ha as [?|[?|[?|?]]]; congruence);
                try (do 2 eexists; reflexivity) ]
            | split; [ run_item; intros [H|[H|H]]; try discriminate H; reflexivity
              | split; [ run_item; intros [H|H] ? ? ? ?; try discriminate; reflexivity
                | intros it' w'; run_item; intros H; try discriminate H;
                  inversion H; subst; split; try split; reflexivity ] ] ]).
Qed.

(** C3, as the code has it.  For an item in IS_WAITING status with its
    payload loaded, [submit] picks the endpoint from the class of the
    payload: route analysis and area analysis have one; for a traffic-density
    payload it raises and leaves the item and the world as they were.  With
    an endpoint, [submitted_ts] is set to the clock reading before the
    request is sent (it is set also when the request raises, in which case
    nothing else changes on the item); the job id of the response is stored;
    and when the response status is 'error' in any letter case, [error] is
    called with the messages joined by '; ', which logs them and sets
    [error_ts] to the next clock reading. *)
Theorem submit_outcome : forall (client : TomtomClient) (it : QueueItem) (w : World)
    (p : TomtomJob),
  get_status it = QueueItemStatus.IS_WAITING ->
  payload it = Some p ->
  match submit_endpoint client (job_class p) with
  | None =>
      submit client (it, w)
        = (inl (ValueError ("The report type is not valid ("
                            ++ default "None" (report_type it) ++ ").")), (it, w))
  | Some (request, answer) =>
      exists it' w',
        snd (submit client (it, w)) = (it', w')
        /\ requests w' = request p :: requests w
        /\ submitted_timestamp it' = Some (clock w (clock_reads w))
        /\ match answer (requests w) p with
           | inl e =>
               fst (submit client (it, w)) = inl e
               /\ it' = set_submitted_timestamp (Some (clock w (clock_reads w))) it
           | inr response =>
               fst (submit client (it, w)) = inr tt
               /\ tomtom_job_id it' = ra_job_id response
               /\ if String.eqb (lower (ra_response_status response)) "error"
                  then error_timestamp it' = Some (clock w (S (clock_reads w)))
                       /\ log w' = ((log w
                                     ++ [(WARNING, ("Error generated for job "
                                                    ++ uid it ++ ".")%string)])
                                    ++ [(ERROR, String.concat "; " (ra_messages response))])%list
                  else error_timestamp it' = None /\ log w' = log w
           end
  end.
Proof.
  intros client it w p Hst Hp.
  destruct (get_status_waiting_inv it Hst) as (He & Hc & Hs & Hx).
  destruct it as [u nm rtp pay pr cr up su co ca er j lnk]; simpl in *; subst.
  destruct w as [inst tbl file files clk reads lg reqs].
  destruct p as [[| |] d]; simpl submit_endpoint; cbv iota beta.
  - run_item. cbv beta iota delta [isinstance JobClass_eqb job_class]. run_item.
    destruct (post_job_route_analysis client reqs _) as [e|response];
      cbv beta iota.
    + do 2 eexists. repeat split; reflexivity.
    + destruct (String.eqb (lower (ra_response_status response)) "error");
        do 2 eexists; repeat split; reflexivity.
  - run_item. cbv beta iota delta [isinstance JobClass_eqb job_class]. run_item.
    destruct (post_job_area_analysis client reqs _) as [e|response];
      cbv beta iota.
    + do 2 eexists. repeat split; reflexivity.
    + destruct (String.eqb (lower (ra_response_status response)) "error");
        do 2 eexists; repeat split; reflexivity.
  - run_item. cbv beta iota delta [isinstance JobClass_eqb job_class]. run_item.
    reflexivity.
Qed.

(** Counterexample to C8 as stated: the item is CANCELED and an argument is
    given, yet [update(cancel=True)] raises. *)
Lemma update_cancel_on_canceled_raises :
  let it := Examples.item "u1" (Some Examples.route_job) 5 500 None (Some 700) None in
  get_status it = QueueItemStatus.CANCELED
  /\ some_argument None None (Some true) None
  /\ ~ returns (update None None (Some true) None) (it, Examples.w0)
  /\ fst (update None None (Some true) None (it, Examples.w0))
     = inl (ValueError "Cannot cancel a job that is not in the WAITING state (u1).").
Proof.
  repeat split.
  - right; right; left; discriminate.
  - intros (a & s' & H). discriminate H.
Qed.

(** Counterexample to C3 as stated: a waiting item with a loaded
    traffic-density payload is not sent to any endpoint, although the client
    has one for it; [submit] raises and [submitted_ts] stays unset. *)
Lemma submit_traffic_density_raises :
  let it := Examples.item "d1" (Some Examples.density_job) 5 500 None None None in
  let client := Examples.client_with 0 [] TomtomJobState.DONE [] in
  get_status it = QueueItemStatus.IS_WAITING
  /\ payload it = Some Examples.density_job
  /\ (exists r, post_job_traffic_density client [] Examples.density_job = inr r)
  /\ submit client (it, Examples.w0)
     = (inl (ValueError "The report type is not valid (TomtomTrafficDensityJob)."),
        (it, Examples.w0)).
Proof.
  repeat split. eexists; reflexivity.
Qed.

Lemma update_no_rollback_witness :
  let it := Examples.item "u1" (Some Examples.route_job) 5 500 None (Some 700) None in
  get_status it = QueueItemStatus.CANCELED
  /\ exists it' w',
       update (Some "renamed") (Some 9) (Some true) (Some Examples.area_job) (it, Examples.w0)
         = (inl (ValueError "Cannot cancel a job that is not in the WAITING state (u1)."),
            (it', w'))
       /\ updated_timestamp it' = Some 1000
       /\ name it' = "renamed"
       /\ priority it' = 9
       /\ payload it' = Some Examples.area_job.
Proof.
  intros it. split; [reflexivity|].
  destruct (update_no_rollback (Some "renamed") (Some 9) (Some Examples.area_job)
              it Examples.w0 eq_refl)
    as (it' & w' & H1 & H2 & H3 & H4 & H5 & _).
  exists it', w'. repeat split; assumption.
Defined.

Lemma submit_outcome_witness :
  let it := Examples.item "r1" (Some Examples.route_job) 5 500 None None None in
  get_status it = QueueItemStatus.IS_WAITING
  /\ payload it = Some Examples.route_job
  /\ exists it' w',
       snd (submit Examples.DummyTomtomClient (it, Examples.w0)) = (it', w')
       /\ requests w' = [PostRouteAnalysis Examples.route_job]
       /\ submitted_timestamp it' = Some 1000.
Proof.
  intros it. split; [reflexivity | split; [reflexivity|]].
  pose proof (submit_outcome Examples.DummyTomtomClient it Examples.w0
                Examples.route_job eq_refl eq_refl) as H.
  simpl in H. destruct H as (it' & w' & H1 & H2 & H3 & _).
  exists it', w'. repeat split; assumption.
Defined.

(** ** The store: merge on write *)

Lemma drop_duplicates_from_elem : forall rows seen r,
  r ∈ drop_duplicates_from seen rows -> (r_uid r ∉ seen) /\ r ∈ rows.
Proof.
  induction rows as [|x rows IH]; intros seen r H; simpl in H.
  - inversion H.
  - case_bool_decide as Hx.
    + destruct (IH _ _ H) as [H1 H2]. split; [exact H1 | now right].
    + apply elem_of_cons in H as [->|H].
      * split; [exact Hx | now left].
      * destruct (IH _ _ H) as [H1 H2]. split; [|now right].
        intros Hin. apply H1. now right.
Qed.

Lemma drop_duplicates_from_NoDup : forall rows seen,
  NoDup (map r_uid (drop_duplicates_from seen rows)).
Proof.
  induction rows as [|x rows IH]; intros seen; simpl.
  - constructor.
  - case_bool_decide as Hx; [apply IH|].
    simpl. constructor; [|apply IH].
    intros Hin. apply list_elem_of_fmap in Hin as (r & Hr & Hin).
    apply drop_duplicates_from_elem in Hin as [Hn _].
    apply Hn. rewrite <- Hr. now left.
Qed.

Lemma drop_duplicates_from_first : forall rows seen u,
  u ∉ seen ->
  first_with_uid u (drop_duplicates_from seen rows) = first_with_uid u rows.
Proof.
  induction rows as [|x rows IH]; intros seen u Hu; simpl; [reflexivity|].
  case_bool_decide as Hx.
  - case_bool_decide as Hxu; [subst; contradiction | apply IH; exact Hu].
  - simpl. case_bool_decide as Hxu; [reflexivity|].
    apply IH. intros Hin. apply elem_of_cons in Hin as [->|Hin]; auto.
Qed.

Lemma drop_duplicates_from_sublist : forall rows seen,
  drop_duplicates_from seen rows `sublist_of` rows.
Proof.
  induction rows as [|x rows IH]; intros seen; simpl; [constructor|].
  case_bool_decide.
  - apply sublist_cons, IH.
  - apply sublist_skip, IH.
Qed.

Lemma drop_duplicates_from_uids : forall rows seen u,
  u ∉ seen -> u ∈ map r_uid rows -> u ∈ map r_uid (drop_duplicates_from seen rows).
Proof.
  induction rows as [|x rows IH]; intros seen u Hu Hin; simpl in *; [exact Hin|].
  apply elem_of_cons in Hin as [->|Hin].
  - case_bool_decide; [contradiction | now left].
  - case_bool_decide as Hx; [apply IH; assumption|].
    simpl. destruct (decide (u = r_uid x)) as [->|Hne]; [now left|].
    right. apply IH; [|exact Hin].
    intros H'. apply elem_of_cons in H' as [->|H']; auto.
Qed.

Lemma rows_with_uid_NoDup : forall rows u,
  NoDup (map r_uid rows) -> u ∈ map r_uid rows ->
  length (rows_with_uid u rows) = 1%nat.
Proof.
  unfold rows_with_uid.
  induction rows as [|x rows IH]; intros u Hnd Hin; simpl in *.
  - inversion Hin.
  - apply NoDup_cons in Hnd as [Hx Hnd].
    rewrite filter_cons. case_decide as Hxu.
    + subst. simpl. f_equal.
      assert (Hnil : filter (fun r => r_uid r = r_uid x) rows = []).
      { clear IH Hin Hnd. induction rows as [|y rows IH]; [reflexivity|].
        rewrite filter_cons. case_decide as Hy.
        - exfalso. apply Hx. rewrite <- Hy. now left.
        - apply IH. intros Hin. apply Hx. now right. }
      rewrite Hnil. reflexivity.
    + apply elem_of_cons in Hin as [->|Hin]; [contradiction|]. now apply IH.
Qed.

(** C9. When the file can be read, [write] reads it again, puts the
    records in memory in front of the records read and keeps, for each uid,
    the first record met (the result has each uid once, in the order of the
    concatenation, and the first record of a uid is the first one of the
    concatenation), then replaces the file by the result.  Hence after
    [add x; add x; write] the table in memory, which is the table in the
    file, holds exactly one record with the uid of [x]. *)
Theorem write_keeps_first_per_uid : forall (w : World) (disk : list Row),
  stored_rows (db_file w) = Some disk ->
  (exists w',
     write w = (inr tt, w')
     /\ df w' = drop_duplicates (df w ++ disk)
     /\ db_file w' = Parquet (df w')
     /\ NoDup (map r_uid (df w'))
     /\ df w' `sublist_of` (df w ++ disk)%list
     /\ forall u, first_with_uid u (df w') = first_with_uid u (df w ++ disk)%list)
  /\ forall x : QueueItem,
       exists w',
         (add x ;;; add x ;;; write) w = (inr tt, w')
         /\ db_file w' = Parquet (df w')
         /\ length (rows_with_uid (uid x) (df w')) = 1%nat.
Proof.
  intros w disk Hd.
  assert (Hw : forall v, db_file v = db_file w ->
             exists w', write v = (inr tt, w')
                        /\ df w' = drop_duplicates (df v ++ disk)
                        /\ db_file w' = Parquet (df w')).
  { intros v Hv. unfold write, bind, get, read, modify. rewrite Hv.
    destruct (db_file w) as [|rows|why]; simpl in Hd; inversion Hd; subst;
      eexists; repeat split; reflexivity. }
  split.
  - destruct (Hw w eq_refl) as (w' & H1 & H2 & H3). exists w'.
    split; [exact H1|]. split; [exact H2|]. split; [exact H3|]. rewrite H2.
    split; [apply drop_duplicates_from_NoDup|].
    split; [apply drop_duplicates_from_sublist|].
    intros u. apply drop_duplicates_from_first. apply not_elem_of_nil.
  - intros x.
    destruct (Hw (set_df ((df w ++ [row_of_item x]) ++ [row_of_item x]) w) eq_refl)
      as (w' & H1 & H2 & H3).
    exists w'. split; [exact H1|]. split; [exact H3|].
    rewrite H2. apply rows_with_uid_NoDup; [apply drop_duplicates_from_NoDup|].
    apply drop_duplicates_from_uids; [apply not_elem_of_nil|].
    simpl. rewrite !map_app. simpl.
    apply elem_of_app. left. apply elem_of_app. right. now left.
Qed.

Lemma write_keeps_first_per_uid_witness :
  let x := Examples.item "u1" (Some Examples.route_job) 5 500 None None None in
  let w := Examples.on_disk [Examples.row "u1" "TomtomRouteJob" 5 400 None None None] [] in
  stored_rows (db_file w) = Some [Examples.row "u1" "TomtomRouteJob" 5 400 None None None]
  /\ exists w', (add x ;;; add x ;;; write) w = (inr tt, w')
                /\ length (rows_with_uid (uid x) (df w')) = 1%nat.
Proof.
  intros x w. split; [reflexivity|].
  destruct (proj2 (write_keeps_first_per_uid w _ eq_refl) x) as (w' & H1 & _ & H2).
  exists w'. split; assumption.
Defined.

(** ** Creation timestamps *)

(** [QueueItem.new] never reads the clock: the creation timestamp of the
    item is the default computed when the class was defined. *)
Lemma QueueItem_new_created_timestamp : forall rt nm job prio w it w',
  QueueItem_new rt nm job prio w = (inr it, w') ->
  created_timestamp it = default_created_timestamp rt
  /\ clock_reads w' = clock_reads w.
Proof.
  intros rt nm job prio w it w' H.
  unfold QueueItem_new, QueueItem_init, bind, ret in H. cbn [payload_link] in H.
  destruct (payload_files w !! _).
  - inversion H; subst. split; reflexivity.
  - revert H. run_item. intros H. inversion H; subst. split; reflexivity.
Qed.

(** C7, on the code.  In one process two jobs are added with priority 7,
    the second one second after the first: the clock readings at the two
    additions differ by a second, yet both records carry the same
    [created_ts], the instant at which the module was imported.
    [list_next(2)] gives the older one first only because the sort keeps
    the order of the table among equals: once the older item has been
    renamed, which writes its record back at the end of the table, the
    younger one comes first. *)
Theorem add_job_created_ts_is_import_time :
  let w1 := snd (priority_queue_add_job Examples.rt "a" Examples.route_job 7 Examples.w0) in
  let w1' := snd (sleep 1 w1) in
  let w2 := snd (priority_queue_add_job Examples.rt "b" Examples.area_job 7 w1') in
  let w3 := snd (rename_next Examples.rt "a2" w2) in
  clock w1' (clock_reads w1') - clock w1 (clock_reads w1) = 1000000000
  /\ map (fun r => (r_name r, r_priority r, r_created_timestamp r)) (df w2)
     = [("a", 7, 500); ("b", 7, 500)]
  /\ default_created_timestamp Examples.rt = 500
  /\ (exists items, priority_queue_list_next Examples.rt 2 w2 = (inr items, w2)
                    /\ map name items = ["a"; "b"])
  /\ (exists items, priority_queue_list_next Examples.rt 2 w3 = (inr items, w3)
                    /\ map name items = ["b"; "a2"]).
Proof.
  repeat split; try reflexivity; eexists; split; vm_compute; reflexivity.
Qed.

(** ** The daemon loop and exceptions *)

(** An exception raised by the body of the [try] statement is written to the
    log at critical level and the iteration ends normally, unless it is not
    an [Exception] (an interrupt or an exit request). *)
Lemma tick_swallows_body_errors : forall rt client w rows,
  stored_rows (db_file w) = Some rows ->
  let w1 := set_df rows (snd (sleep (loop_duration rt) w)) in
  match tick_body rt client w1 with
  | (inr _, w2) => tick rt client w = (inr tt, w2)
  | (inl e, w2) =>
      if is_Exception e
      then tick rt client w = (inr tt, set_log (log w2 ++ [(CRITICAL, str_exn e)]) w2)
      else tick rt client w = (inl e, w2)
  end.
Proof.
  intros rt client w rows Hd w1. subst w1.
  unfold tick, bind, sleep, modify, read, try_except_Exception, log_record.
  cbn [snd fst]. cbv beta iota.
  replace (db_file (set_clock _ w)) with (db_file w) by reflexivity.
  destruct (db_file w) as [|rs|why]; simpl in Hd; inversion Hd; subst;
    destruct (tick_body rt client _) as [[e|[]] w2]; try reflexivity;
    destruct (is_Exception e); reflexivity.
Qed.

(** C6, on the code.  [db.read()] stands before the [try] statement: when
    the file of the store cannot be read at the start of an iteration, the
    exception, an ordinary [Exception], is neither logged nor swallowed; it
    leaves the iteration and the loop, whatever number of iterations was
    still to come, and no request is sent. *)
Theorem read_error_ends_the_daemon : forall (rt : Runtime) (client : TomtomClient)
    (w : World) (why : string) (k : nat),
  db_file w = Unreadable why ->
  is_Exception (OSError why) = true
  /\ tick rt client w = (inl (OSError why), snd (sleep (loop_duration rt) w))
  /\ daemon_loop rt client (S k) w
     = (inl (OSError why), snd (sleep (loop_duration rt) w))
  /\ log (snd (daemon_loop rt client (S k) w)) = log w
  /\ requests (snd (daemon_loop rt client (S k) w)) = requests w.
Proof.
  intros rt client w why k H.
  assert (Ht : tick rt client w = (inl (OSError why), snd (sleep (loop_duration rt) w))).
  { unfold tick, bind, sleep, modify, read. cbn [snd fst]. cbv beta iota.
    replace (db_file (set_clock _ w)) with (db_file w) by reflexivity.
    rewrite H. reflexivity. }
  assert (Hl : daemon_loop rt client (S k) w
               = (inl (OSError why), snd (sleep (loop_duration rt) w))).
  { simpl. unfold bind at 1. rewrite Ht. reflexivity. }
  split; [reflexivity|]. split; [exact Ht|]. split; [exact Hl|].
  rewrite Hl. split; reflexivity.
Qed.

Lemma read_error_ends_the_daemon_witness :
  let w := set_db_file (Unreadable "Parquet magic bytes not found") Examples.w0 in
  db_file w = Unreadable "Parquet magic bytes not found"
  /\ fst (daemon_loop Examples.rt Examples.DummyTomtomClient 3 w)
     = inl (OSError "Parquet magic bytes not found").
Proof.
  intros w. split; [reflexivity|].
  destruct (read_error_ends_the_daemon Examples.rt Examples.DummyTomtomClient w
              "Parquet magic bytes not found" 2 eq_refl) as (_ & _ & H & _).
  rewrite H. reflexivity.
Defined.

(** ** What the operations leave unchanged *)

Section Unchanged.
Context {S X : Type} (f : S -> X).

Lemma unchanged_ret {A} (a : A) : unchanged f (ret a).
Proof. intros s. reflexivity. Qed.

Lemma unchanged_raise {A} (e : exn) : unchanged f (@raise S A e).
Proof. intros s. reflexivity. Qed.

Lemma unchanged_get : unchanged f (@get S).
Proof. intros s. reflexivity. Qed.

Lemma unchanged_modify (g : S -> S) :
  (forall s, f (g s) = f s) -> unchanged f (modify g).
Proof. intros H s. apply H. Qed.

Lemma unchanged_bind {A B} (m : M S A) (k : A -> M S B) :
  unchanged f m -> (forall a, unchanged f (k a)) -> unchanged f (bind m k).
Proof.
  intros Hm Hk s. unfold bind. specialize (Hm s).
  destruct (m s) as [[e|a] s']; simpl in *; [exact Hm|].
  rewrite (Hk a s'). exact Hm.
Qed.

Lemma unchanged_for_each {A} (l : list A) (body : A -> M S unit) :
  (forall a, unchanged f (body a)) -> unchanged f (for_each l body).
Proof.
  intros Hb. induction l as [|a l IH]; simpl.
  - apply unchanged_ret.
  - apply unchanged_bind; [apply Hb | intros _; exact IH].
Qed.

Lemma unchanged_map_M {A B} (g : A -> M S B) (l : list A) :
  (forall a, unchanged f (g a)) -> unchanged f (map_M g l).
Proof.
  intros Hg. induction l as [|a l IH]; simpl.
  - apply unchanged_ret.
  - apply unchanged_bind; [apply Hg | intros b].
    apply unchanged_bind; [exact IH | intros bs; apply unchanged_ret].
Qed.

Lemma unchanged_try {A} (m : M S A) (h : exn -> M S A) :
  unchanged f m -> (forall e, unchanged f (h e)) ->
  unchanged f (try_except_Exception m h).
Proof.
  intros Hm Hh s. unfold try_except_Exception. specialize (Hm s).
  destruct (m s) as [[e|a] s']; simpl in *; [|exact Hm].
  destruct (is_Exception e); [|exact Hm]. rewrite (Hh e s'). exact Hm.
Qed.

End Unchanged.

(** Goes through the monadic structure of an operation. *)
Ltac unchanged_step :=
  first
    [ apply unchanged_ret | apply unchanged_raise | apply unchanged_get
    | apply unchanged_bind; [|intros ?]
    | apply unchanged_for_each; intros ?
    | apply unchanged_map_M; intros ?
    | match goal with
      | |- unchanged _ (if ?b then _ else _) => destruct b
      | |- unchanged _ (match ?x with _ => _ end) => destruct x
      end ].

Section UnchangedWorld.
Context {X : Type} (f : World -> X).
Hypothesis f_files : forall v w, f (set_payload_files v w) = f w.
Hypothesis f_reads : forall v w, f (set_clock_reads v w) = f w.
Hypothesis f_log : forall v w, f (set_log v w) = f w.
Hypothesis f_request : forall q w,
  is_post q = false -> f (set_requests (q :: requests w) w) = f w.

Lemma unchanged_lift_world {A} (m : M World A) :
  unchanged f m -> unchanged (on_world f) (lift_world m).
Proof.
  intros Hm [it w]. unfold lift_world, on_world. simpl. specialize (Hm w).
  destruct (m w) as [r w']. exact Hm.
Qed.

Lemma unchanged_self : unchanged (on_world f) self.
Proof. intros s. reflexivity. Qed.

Lemma unchanged_set_self g : unchanged (on_world f) (set_self g).
Proof. intros s. reflexivity. Qed.

Lemma unchanged_now : unchanged f now.
Proof. intros w. apply f_reads. Qed.

Lemma unchanged_log_record lvl msg : unchanged f (log_record lvl msg).
Proof. intros w. apply f_log. Qed.

Lemma unchanged_on_item {A} it (m : M ItemState A) :
  unchanged (on_world f) m -> unchanged f (on_item it m).
Proof.
  intros Hm w. unfold on_item. specialize (Hm (it, w)). unfold on_world in Hm.
  destruct (m (it, w)) as [[e|a] s]; exact Hm.
Qed.

Lemma unchanged_error msg : unchanged (on_world f) (error msg).
Proof.
  unfold error.
  repeat first [ apply unchanged_self | apply unchanged_set_self
               | apply unchanged_lift_world
               | apply unchanged_now | apply unchanged_log_record
               | unchanged_step ].
Qed.

Lemma unchanged_erase : unchanged (on_world f) erase.
Proof.
  unfold erase.
  repeat first [ apply unchanged_self | apply unchanged_lift_world
               | apply unchanged_modify; intros ?; apply f_files
               | unchanged_step ].
Qed.

Lemma unchanged_store_payload : unchanged (on_world f) store_payload.
Proof.
  unfold store_payload.
  repeat first [ apply unchanged_self | apply unchanged_error | apply unchanged_erase
               | apply unchanged_lift_world
               | apply unchanged_modify; intros ?; apply f_files
               | unchanged_step ].
Qed.

Lemma unchanged_complete client : unchanged (on_world f) (complete client).
Proof.
  unfold complete.
  repeat first [ apply unchanged_self | apply unchanged_set_self
               | apply unchanged_error | apply unchanged_erase
               | apply unchanged_lift_world
               | apply unchanged_now
               | unchanged_step ].
  intros w. unfold send. simpl. apply f_request. reflexivity.
Qed.

Lemma unchanged_QueueItem_init rt nm pay prio cr u rtp up su co ca er j :
  unchanged f (QueueItem_init rt nm pay prio cr u rtp up su co ca er j).
Proof.
  unfold QueueItem_init. apply unchanged_bind.
  - destruct u as [u|]; [destruct (String.eqb u EmptyString)|];
      destruct pay; first [apply unchanged_ret | apply unchanged_raise].
  - intros u' w. cbv beta zeta.
    destruct (payload_files w !! _); [reflexivity|].
    match goal with |- context [store_payload ?s] =>
      pose proof (unchanged_store_payload s) as H; unfold on_world in H;
      destruct (store_payload s) as [[e|a] s'] end; exact H.
Qed.

Lemma unchanged_QueueItem_from_dict rt row : unchanged f (QueueItem_from_dict rt row).
Proof.
  unfold QueueItem_from_dict.
  repeat first [ apply unchanged_QueueItem_init | unchanged_step ].
Qed.

Lemma unchanged_get_next rt n : unchanged f (get_next rt n).
Proof.
  unfold get_next.
  repeat first [ apply unchanged_QueueItem_from_dict | unchanged_step ].
Qed.

Lemma unchanged_get_filtered_items rt status : unchanged f (get_filtered_items rt status).
Proof.
  unfold get_filtered_items.
  repeat first [ apply unchanged_QueueItem_from_dict | unchanged_step ].
Qed.

End UnchangedWorld.

(** *** The submission requests *)

Lemma posts_files v w : posts (set_payload_files v w) = posts w.
Proof. reflexivity. Qed.

Lemma posts_reads v w : posts (set_clock_reads v w) = posts w.
Proof. reflexivity. Qed.

Lemma posts_log v w : posts (set_log v w) = posts w.
Proof. reflexivity. Qed.

Lemma posts_request q w :
  is_post q = false -> posts (set_requests (q :: requests w) w) = posts w.
Proof.
  intros H. unfold posts. simpl. rewrite filter_cons.
  case_decide; [congruence | reflexivity].
Qed.

Lemma posts_post q w :
  is_post q = true -> posts (set_requests (q :: requests w) w) = q :: posts w.
Proof.
  intros H. unfold posts. simpl. rewrite filter_cons.
  case_decide; [reflexivity | congruence].
Qed.

Lemma unchanged_posts_read : unchanged posts read.
Proof. intros w. unfold read. destruct (db_file w); reflexivity. Qed.

Lemma unchanged_posts_write : unchanged posts write.
Proof.
  unfold write.
  repeat first [ apply unchanged_posts_read
               | apply unchanged_modify; intros ?; reflexivity
               | unchanged_step ].
Qed.

Lemma unchanged_posts_db_update items force : unchanged posts (db_update items force).
Proof.
  unfold db_update, add.
  repeat first [ apply unchanged_posts_write
               | apply unchanged_modify; intros ?; reflexivity
               | unchanged_step ].
Qed.

(** [submit] either sends no submission request and raises, or sends the
    one request of the item, having set [submitted_ts] just before. *)
Lemma submit_posts : forall client it w,
  (exists e, fst (submit client (it, w)) = inl e
             /\ posts (snd (snd (submit client (it, w)))) = posts w
             /\ fst (snd (submit client (it, w))) = it)
  \/ (exists q, post_request_of it = Some q
                /\ get_status it = QueueItemStatus.IS_WAITING
                /\ posts (snd (snd (submit client (it, w)))) = q :: posts w
                /\ submitted_timestamp (fst (snd (submit client (it, w))))
                   = Some (clock w (clock_reads w))).
Proof.
  intros client it w.
  destruct it as [u nm rtp pay pr cr up su co ca er j lnk].
  destruct w as [inst tbl file files clk reads lg reqs].
  destruct er, co, su, ca;
    try (left; eexists; repeat split; reflexivity).
  destruct pay as [[[| |] d]|];
    try (left; eexists; repeat split; reflexivity).
  - right. eexists. split; [reflexivity|]. split; [reflexivity|].
    run_item. cbv beta iota delta [isinstance JobClass_eqb job_class]. run_item.
    destruct (post_job_route_analysis client reqs _) as [e|response]; cbv beta iota.
    + split; reflexivity.
    + destruct (String.eqb (lower (ra_response_status response)) "error");
        split; reflexivity.
  - right. eexists. split; [reflexivity|]. split; [reflexivity|].
    run_item. cbv beta iota delta [isinstance JobClass_eqb job_class]. run_item.
    destruct (post_job_area_analysis client reqs _) as [e|response]; cbv beta iota.
    + split; reflexivity.
    + destruct (String.eqb (lower (ra_response_status response)) "error");
        split; reflexivity.
Qed.

Lemma bind_run {S A B} (m : M S A) (k : A -> M S B) (s : S) :
  bind m k s = match m s with
               | (inl e, s') => (inl e, s')
               | (inr a, s') => k a s'
               end.
Proof. reflexivity. Qed.

Lemma submit_and_store_posts : forall client item w,
  (exists e, fst (submit_and_store client item w) = inl e
             /\ posts (snd (submit_and_store client item w)) = posts w)
  \/ (exists q, post_request_of item = Some q
                /\ get_status item = QueueItemStatus.IS_WAITING
                /\ posts (snd (submit_and_store client item w)) = q :: posts w).
Proof.
  intros client item w. unfold submit_and_store. rewrite !bind_run. unfold on_item.
  destruct (submit_posts client item w) as [(e & He & Hp & _)|(q & Hq & Hs & Hp & _)].
  - left. exists e. destruct (submit client (item, w)) as [[e'|a] s]; simpl in *;
      [inversion He; subst; split; [reflexivity | exact Hp] | discriminate].
  - right. exists q. split; [exact Hq|]. split; [exact Hs|].
    destruct (submit client (item, w)) as [[e'|a] s]; simpl in *; [exact Hp|].
    match goal with |- posts (snd (?m (snd s))) = _ =>
      assert (Hu : unchanged posts m) end.
    { repeat first [ apply unchanged_posts_db_update
                   | apply (unchanged_log_record posts posts_log)
                   | unchanged_step ]. }
    rewrite Hu. exact Hp.
Qed.

(** ** Selection of the next items *)

Lemma map_M_length {S A B} (g : A -> M S B) : forall l s ys s',
  map_M g l s = (inr ys, s') -> length ys = length l.
Proof.
  induction l as [|a l IH]; intros s ys s' H; simpl in H.
  - inversion H. reflexivity.
  - rewrite bind_run in H. destruct (g a s) as [[e|b] s1]; [discriminate|].
    rewrite bind_run in H. destruct (map_M g l s1) as [[e|bs] s2] eqn:E; [discriminate|].
    inversion H; subst. simpl. f_equal. eapply IH. exact E.
Qed.

Lemma map_M_Forall2 {S A B} (g : A -> M S B) (P : A -> B -> Prop) :
  (forall a s b s', g a s = (inr b, s') -> P a b) ->
  forall l s ys s', map_M g l s = (inr ys, s') -> Forall2 P l ys.
Proof.
  intros Hg. induction l as [|a l IH]; intros s ys s' H; simpl in H.
  - inversion H. constructor.
  - rewrite bind_run in H. destruct (g a s) as [[e|b] s1] eqn:Ea; [discriminate|].
    rewrite bind_run in H. destruct (map_M g l s1) as [[e|bs] s2] eqn:E; [discriminate|].
    inversion H; subst. constructor; [eapply Hg; exact Ea | eapply IH; exact E].
Qed.


Lemma row_leb_total : forall a b, row_leb a b = false -> row_leb b a = true.
Proof. intros a b. unfold row_leb. lia. Qed.

Lemma row_le_trans : forall a b c, row_le a b -> row_le b c -> row_le a c.
Proof. intros a b c. unfold row_le, row_leb. lia. Qed.

Lemma insert_row_Forall (P : Row -> Prop) : forall x l,
  P x -> Forall P l -> Forall P (insert_row x l).
Proof.
  intros x l Hx Hl. induction Hl as [|y l Hy Hl IH]; simpl.
  - constructor; [exact Hx | constructor].
  - destruct (row_leb y x); constructor; auto.
Qed.

Lemma insert_row_Permutation : forall x l, insert_row x l ≡ₚ x :: l.
Proof.
  intros x l. induction l as [|y l IH]; simpl; [reflexivity|].
  destruct (row_leb y x); [|reflexivity].
  rewrite IH. apply Permutation_swap.
Qed.

Lemma insert_row_sorted : forall x l,
  StronglySorted row_le l -> StronglySorted row_le (insert_row x l).
Proof.
  intros x l Hl. induction Hl as [|y l Hl IH Hy]; simpl.
  - constructor; constructor.
  - destruct (row_leb y x) eqn:E.
    + constructor; [exact IH|]. apply insert_row_Forall; [exact E | exact Hy].
    + apply row_leb_total in E. constructor.
      * constructor; assumption.
      * constructor; [exact E|].
        eapply Forall_impl; [exact Hy|]. intros z Hz. eapply row_le_trans; eassumption.
Qed.

Lemma sort_values_from : forall l acc,
  StronglySorted row_le acc ->
  StronglySorted row_le (fold_left (fun acc r => insert_row r acc) l acc)
  /\ fold_left (fun acc r => insert_row r acc) l acc ≡ₚ acc ++ l.
Proof.
  induction l as [|x l IH]; intros acc Hacc; simpl.
  - split; [exact Hacc | now rewrite app_nil_r].
  - destruct (IH (insert_row x acc) (insert_row_sorted x acc Hacc)) as [H1 H2].
    split; [exact H1|]. rewrite H2, insert_row_Permutation.
    simpl. apply Permutation_middle.
Qed.

Lemma sort_values_sorted : forall l, StronglySorted row_le (sort_values l).
Proof. intros l. apply sort_values_from. constructor. Qed.

Lemma sort_values_Permutation : forall l, sort_values l ≡ₚ l.
Proof. intros l. apply (sort_values_from l []). constructor. Qed.

Lemma StronglySorted_take {A} (R : A -> A -> Prop) : forall k l,
  StronglySorted R l -> StronglySorted R (take k l).
Proof.
  intros k l H. revert k.
  induction H as [|a l H IH Ha]; intros [|k]; simpl; try constructor.
  - apply IH.
  - apply Forall_take. exact Ha.
Qed.

Lemma StronglySorted_Forall2 {A B} (R : A -> A -> Prop) (Q : B -> B -> Prop)
    (P : A -> B -> Prop) :
  (forall a a' b b', P a b -> P a' b' -> R a a' -> Q b b') ->
  forall l l', Forall2 P l l' -> StronglySorted R l -> StronglySorted Q l'.
Proof.
  intros HPQ l l' H. induction H as [|a b l l' Hab H IH]; intros Hs.
  - constructor.
  - apply StronglySorted_inv in Hs as [Hs Ha]. constructor; [apply IH; exact Hs|].
    clear IH Hs. induction H as [|a' b' l l' Hab' H IH]; [constructor|].
    apply Forall_cons in Ha as [Haa' Ha].
    constructor; [eapply HPQ; eassumption | apply IH; exact Ha].
Qed.

(** What [QueueItem.from_dict] gives for a record: the lifecycle attributes
    are those of the record, except that a missing payload file under a
    record without error timestamp (and not completed) sets one. *)
Lemma QueueItem_from_dict_returns : forall rt row w it w',
  QueueItem_from_dict rt row w = (inr it, w') ->
  name it = r_name row
  /\ priority it = r_priority row
  /\ created_timestamp it = r_created_timestamp row
  /\ submitted_timestamp it = r_submitted_timestamp row
  /\ completed_timestamp it = r_completed_timestamp row
  /\ cancelled_timestamp it = r_cancelled_timestamp row
  /\ tomtom_job_id it = r_tomtom_job_id row
  /\ (error_timestamp it = r_error_timestamp row
      \/ (r_error_timestamp row = None /\ payload it = None
          /\ exists t, error_timestamp it = Some t)).
Proof.
  intros rt row w it w' H.
  unfold QueueItem_from_dict in H. rewrite bind_run in H.
  destruct (String.eqb (r_report_type row) "TomtomRouteJob");
    [|destruct (String.eqb (r_report_type row) "TomtomAreaJob")];
    cbn [ret raise] in H; try discriminate;
    rewrite bind_run in H; cbn [get] in H; rewrite bind_run in H;
    (destruct (payload_files w !! r_payload_link row) as [d|];
     [destruct (from_dict_ok rt _ d)|]);
    cbn [ret raise] in H; try discriminate;
    unfold QueueItem_init in H; rewrite bind_run in H;
    destruct (String.eqb (r_uid row) EmptyString); cbn [ret raise] in H;
    try discriminate;
    cbv beta zeta in H; cbn [payload_link] in H;
    (destruct (payload_files w !! _) as [d'|];
     [ inversion H; subst; cbn; repeat split; left; reflexivity | ]);
    destruct row as [u nm rtp lnk pr cr up su co ca er j];
    cbn [r_uid r_name r_report_type r_payload_link r_priority r_created_timestamp
         r_updated_timestamp r_submitted_timestamp r_completed_timestamp
         r_cancelled_timestamp r_error_timestamp r_tomtom_job_id] in H;
    destruct er, co, su, ca; revert H; run_item; intros H; inversion H; subst; cbn;
    repeat split; first [ left; reflexivity
                        | right; repeat split; eexists; reflexivity ].
Qed.


Lemma is_next_row_waiting : forall r,
  is_next_row r = true <-> row_status r = QueueItemStatus.IS_WAITING.
Proof.
  intros r. unfold is_next_row, row_status.
  destruct (r_error_timestamp r), (r_completed_timestamp r),
    (r_submitted_timestamp r), (r_cancelled_timestamp r); simpl;
    split; intros H; try discriminate; reflexivity.
Qed.

Lemma from_dict_built_from_waiting : forall rt r w it w',
  QueueItem_from_dict rt r w = (inr it, w') ->
  is_next_row r = true -> built_from_waiting r it.
Proof.
  intros rt r w it w' H Hr.
  destruct (QueueItem_from_dict_returns _ _ _ _ _ H)
    as (Hn & Hp & Hc & Hs & Hco & Hca & _ & He).
  unfold is_next_row in Hr. unfold built_from_waiting.
  repeat split; try assumption.
  rewrite get_status_projection, Hs, Hco, Hca.
  destruct (r_submitted_timestamp r), (r_completed_timestamp r),
    (r_cancelled_timestamp r), (r_error_timestamp r) eqn:Er; try discriminate.
  destruct He as [He|(_ & Hpay & t & He)]; rewrite He; simpl; auto.
Qed.

Lemma Forall2_under_Forall {A B} (P : A -> Prop) (Q R : A -> B -> Prop) :
  (forall a b, P a -> Q a b -> R a b) ->
  forall l l', Forall P l -> Forall2 Q l l' -> Forall2 R l l'.
Proof.
  intros H l l' HP HQ. induction HQ as [|a b l l' Hab HQ IH]; [constructor|].
  apply Forall_cons in HP as [Ha HP]. constructor; auto.
Qed.

Lemma item_before_of_rows : forall a a' b b',
  built_from_waiting a b -> built_from_waiting a' b' -> row_le a a' -> item_before b b'.
Proof.
  intros a a' b b' (_ & Hp & Hc & _) (_ & Hp' & Hc' & _) H.
  unfold row_le, row_leb in H. unfold item_before. rewrite Hp, Hc, Hp', Hc'. lia.
Qed.

(** When [get_next] returns, the items are those built from the first
    records, at most [n], of the waiting records sorted in the order of
    the table; hence they are in order themselves. *)
Lemma get_next_returns : forall rt n w items w',
  0 <= n ->
  get_next rt n w = (inr items, w') ->
  exists sorted,
    sorted ≡ₚ filter (fun r => row_status r = QueueItemStatus.IS_WAITING) (df w)
    /\ StronglySorted row_le sorted
    /\ Forall2 built_from_waiting (take (Z.to_nat n) sorted) items
    /\ (length items <= Z.to_nat n)%nat
    /\ StronglySorted item_before items.
Proof.
  intros rt n w items w' Hn H.
  unfold get_next in H. rewrite bind_run in H. cbn [get] in H.
  unfold slice_to in H. destruct (0 <=? n) eqn:E; [|lia].
  set (sorted := sort_values (filter (fun r => is_next_row r = true) (df w))) in *.
  assert (Hperm : sorted ≡ₚ filter (fun r => is_next_row r = true) (df w))
    by apply sort_values_Permutation.
  assert (Hall : Forall (fun r => is_next_row r = true) sorted).
  { rewrite Hperm. apply Forall_forall. intros r Hr.
    apply list_elem_of_filter in Hr. tauto. }
  assert (Hb : Forall2 built_from_waiting (take (Z.to_nat n) sorted) items).
  { eapply Forall2_under_Forall with (P := fun r => is_next_row r = true)
      (Q := fun r it => is_next_row r = true -> built_from_waiting r it).
    - intros a b Ha Hab. exact (Hab Ha).
    - apply Forall_take. exact Hall.
    - eapply map_M_Forall2; [|exact H].
      intros a s b s' Hab Ha. eapply from_dict_built_from_waiting; eassumption. }
  exists sorted. split.
  { rewrite Hperm. erewrite list_filter_iff; [reflexivity|].
    intros r. apply is_next_row_waiting. }
  split; [apply sort_values_sorted|]. split; [exact Hb|]. split.
  - apply map_M_length in H. rewrite H, length_take. lia.
  - eapply StronglySorted_Forall2; [|exact Hb|].
    + intros a a' b b'. apply item_before_of_rows.
    + apply StronglySorted_take, sort_values_sorted.
Qed.


(** ** Submissions within one iteration *)

Lemma unchanged_posts_get_next rt n : unchanged posts (get_next rt n).
Proof.
  apply unchanged_get_next; auto using posts_files, posts_reads, posts_log.
Qed.

Lemma unchanged_posts_complete_old_submitted rt client resp :
  unchanged posts (complete_old_submitted rt client resp).
Proof.
  unfold complete_old_submitted. cbv zeta.
  apply unchanged_bind.
  - apply unchanged_get_filtered_items; auto using posts_files, posts_reads, posts_log.
  - intros submitted_items. apply unchanged_bind.
    + apply unchanged_map_M. intros item. unfold complete_and_log.
      apply unchanged_bind.
      * apply unchanged_on_item. apply unchanged_complete;
          auto using posts_files, posts_reads, posts_log, posts_request.
      * intros item'. apply unchanged_bind; [|intros; apply unchanged_ret].
        apply unchanged_log_record. apply posts_log.
    + intros completed. apply unchanged_posts_db_update.
Qed.

(** The loop of step 2 sends the requests of the first items of the list,
    one each, in the order of the list, and stops at the first item whose
    submission raises. *)
Lemma for_each_submit_posts : forall client items w,
  exists k qs,
    posts (snd (for_each items (submit_and_store client) w)) = (rev qs ++ posts w)%list
    /\ map Some qs = map post_request_of (take k items)
    /\ Forall (fun it => get_status it = QueueItemStatus.IS_WAITING) (take k items).
Proof.
  intros client items. induction items as [|item items IH]; intros w.
  - exists 0%nat, []. repeat split. constructor.
  - simpl for_each. rewrite bind_run.
    destruct (submit_and_store_posts client item w)
      as [(e & He & Hp)|(q & Hq & Hs & Hp)];
      destruct (submit_and_store client item w) as [[e'|[]] w1]; simpl in *.
    + exists 0%nat, []. repeat split; [exact Hp | constructor].
    + discriminate He.
    + exists 1%nat, [q]. simpl. rewrite Hq, Hp. repeat split.
      rewrite take_0. constructor; [exact Hs | constructor].
    + destruct (IH w1) as (k & qs & H1 & H2 & H3).
      exists (S k), (q :: qs). simpl. rewrite H1, Hp, Hq, <- H2.
      rewrite <- app_assoc. repeat split. constructor; assumption.
Qed.

(** The case in which nothing is submitted; the bound is left to prove. *)
Ltac nothing_submitted H :=
  exists [], []; simpl;
  split; [exact H|]; split; [reflexivity|];
  split; [constructor|]; split; [constructor|].

Lemma submit_next_submissions : forall rt client n w,
  n < N_CONCURRENT_JOB_IN_PROGRESS ->
  exists submitted qs,
    posts (snd (submit_next rt client n w)) = (rev qs ++ posts w)%list
    /\ map Some qs = map post_request_of submitted
    /\ StronglySorted item_before submitted
    /\ Forall (fun it => get_status it = QueueItemStatus.IS_WAITING) submitted
    /\ Z.of_nat (length submitted) <= N_CONCURRENT_JOB_IN_PROGRESS - n.
Proof.
  intros rt client n w Hn. unfold submit_next. rewrite bind_run.
  pose proof (unchanged_posts_get_next rt (N_CONCURRENT_JOB_IN_PROGRESS - n) w) as Hu.
  destruct (get_next rt (N_CONCURRENT_JOB_IN_PROGRESS - n) w) as [[e|items] w1] eqn:E;
    simpl in Hu.
  - nothing_submitted Hu. lia.
  - assert (H0 : 0 <= N_CONCURRENT_JOB_IN_PROGRESS - n) by lia.
    destruct (get_next_returns _ _ _ _ _ H0 E) as (sorted & _ & _ & _ & Hlen & Hs).
    destruct (for_each_submit_posts client items w1) as (k & qs & H1 & H2 & H3).
    exists (take k items), qs. rewrite H1, Hu.
    repeat split; try assumption.
    + apply StronglySorted_take. exact Hs.
    + rewrite length_take. lia.
Qed.

Lemma tick_body_submissions : forall rt client w,
  exists submitted qs,
    posts (snd (tick_body rt client w)) = (rev qs ++ posts w)%list
    /\ map Some qs = map post_request_of submitted
    /\ StronglySorted item_before submitted
    /\ Forall (fun it => get_status it = QueueItemStatus.IS_WAITING) submitted
    /\ forall resp, search_jobs client (requests w) in_progress_states = inr resp ->
         Z.of_nat (length submitted)
           <= Z.max 0 (N_CONCURRENT_JOB_IN_PROGRESS - total_elements resp).
Proof.
  intros rt client w. unfold tick_body. rewrite bind_run. unfold send at 1.
  set (w1 := set_requests (SearchJobs in_progress_states :: requests w) w).
  assert (Hw1 : posts w1 = posts w) by (apply posts_request; reflexivity).
  destruct (search_jobs client (requests w) in_progress_states) as [e|resp].
  - nothing_submitted Hw1. discriminate.
  - cbv zeta. destruct (total_elements resp <? N_CONCURRENT_JOB_IN_PROGRESS) eqn:En.
    + apply Z.ltb_lt in En. rewrite bind_run. unfold log_record at 1, modify at 1.
      set (w2 := set_log _ w1). rewrite bind_run.
      assert (Hw2 : posts w2 = posts w1) by reflexivity.
      pose proof (unchanged_posts_complete_old_submitted rt client resp w2) as Hu.
      destruct (complete_old_submitted rt client resp w2) as [[e|[]] w3]; simpl in Hu.
      * assert (Hw3 : posts w3 = posts w) by congruence.
        nothing_submitted Hw3. intros r Hr. lia.
      * destruct (submit_next_submissions rt client (total_elements resp) w3 En)
          as (submitted & qs & H1 & H2 & H3 & H4 & H5).
        exists submitted, qs. rewrite H1, Hu, Hw2, Hw1. repeat split; try assumption.
        intros r Hr. inversion Hr; subst. lia.
    + nothing_submitted Hw1. intros r Hr. lia.
Qed.

Lemma tick_submissions : forall rt client w,
  exists submitted qs,
    posts (snd (tick rt client w)) = (rev qs ++ posts w)%list
    /\ map Some qs = map post_request_of submitted
    /\ StronglySorted item_before submitted
    /\ Forall (fun it => get_status it = QueueItemStatus.IS_WAITING) submitted
    /\ forall resp, search_jobs client (requests w) in_progress_states = inr resp ->
         Z.of_nat (length submitted)
           <= Z.max 0 (N_CONCURRENT_JOB_IN_PROGRESS - total_elements resp).
Proof.
  intros rt client w. unfold tick. rewrite bind_run. unfold sleep at 1, modify at 1.
  set (w1 := set_clock _ w). rewrite bind_run. unfold read at 1.
  replace (db_file w1) with (db_file w) by reflexivity.
  assert (Hnone : exists submitted qs : list _,
            posts w1 = (rev qs ++ posts w)%list
            /\ map Some qs = map post_request_of submitted
            /\ StronglySorted item_before submitted
            /\ Forall (fun it => get_status it = QueueItemStatus.IS_WAITING) submitted
            /\ forall resp, search_jobs client (requests w) in_progress_states = inr resp ->
                 Z.of_nat (length submitted)
                 <= Z.max 0 (N_CONCURRENT_JOB_IN_PROGRESS - total_elements resp)).
  { assert (Hw1 : posts w1 = posts w) by reflexivity.
    nothing_submitted Hw1. intros; lia. }
  assert (Hbody : forall rows, exists submitted qs,
            posts (snd (try_except_Exception (tick_body rt client)
                          (fun e => log_record CRITICAL (str_exn e)) (set_df rows w1)))
              = (rev qs ++ posts w)%list
            /\ map Some qs = map post_request_of submitted
            /\ StronglySorted item_before submitted
            /\ Forall (fun it => get_status it = QueueItemStatus.IS_WAITING) submitted
            /\ forall resp, search_jobs client (requests w) in_progress_states = inr resp ->
                 Z.of_nat (length submitted)
                 <= Z.max 0 (N_CONCURRENT_JOB_IN_PROGRESS - total_elements resp)).
  { intros rows.
    destruct (tick_body_submissions rt client (set_df rows w1))
      as (submitted & qs & H1 & H2).
    exists submitted, qs. split; [|exact H2].
    unfold try_except_Exception.
    destruct (tick_body rt client (set_df rows w1)) as [[e|[]] w2]; simpl in *;
      [destruct (is_Exception e)|]; exact H1. }
  destruct (db_file w) as [|rows|why].
  - apply Hbody.
  - apply Hbody.
  - exact Hnone.
Qed.

Lemma new_submissions_length : forall w w' (submitted : list QueueItem) qs,
  posts w' = (rev qs ++ posts w)%list ->
  map Some qs = map post_request_of submitted ->
  new_submissions w w' = length submitted.
Proof.
  intros w w' submitted qs H1 H2. unfold new_submissions.
  rewrite H1, length_app, length_rev.
  apply (f_equal length) in H2. rewrite !length_map in H2. lia.
Qed.

(** An iteration in which the search reports at least
    [N_CONCURRENT_JOB_IN_PROGRESS] jobs does nothing but read the store and
    send the search request. *)
Lemma tick_without_free_spot : forall rt client w resp,
  search_jobs client (requests w) in_progress_states = inr resp ->
  N_CONCURRENT_JOB_IN_PROGRESS <= total_elements resp ->
  db_file (snd (tick rt client w)) = db_file w
  /\ payload_files (snd (tick rt client w)) = payload_files w
  /\ log (snd (tick rt client w)) = log w
  /\ forall rows, stored_rows (db_file w) = Some rows -> df (snd (tick rt client w)) = rows.
Proof.
  intros rt client w resp Hs Hn.
  apply Z.ltb_ge in Hn.
  destruct w as [inst tbl file files clk reads lg reqs]. simpl in Hs.
  unfold tick, tick_body, bind, sleep, read, modify, send, try_except_Exception.
  cbn [db_file payload_files log df requests set_clock set_df set_requests
       with_world_fields clock clock_reads db_instantiated fst snd].
  destruct file as [|rows|why];
    cbn [db_file payload_files log df requests set_clock set_df set_requests
         with_world_fields clock clock_reads db_instantiated fst snd];
    try rewrite Hs; cbv zeta; try rewrite Hn;
    cbn [ret db_file payload_files log df requests set_clock set_df set_requests
         with_world_fields clock clock_reads db_instantiated fst snd stored_rows];
    repeat split; intros rows' Hr; inversion Hr; reflexivity.
Qed.

(** C1, as the code has it.  In an iteration whose search reports [n] jobs
    in progress: when [n] is at least 5 no submission request is sent (and
    [submit] sets [submitted_ts] only together with one, see
    [submit_posts]), the file of the store, the payload files and the log
    are untouched and the table in memory is the one read from the file;
    in every case at most [max(0, 5 - n)] submission requests are sent; so
    when [n] does not exceed 5, [n] plus the number of new submissions does
    not exceed 5. *)
Theorem admission_cap : forall (rt : Runtime) (client : TomtomClient) (w : World)
    (resp : TomtomResponseSearchJobs),
  search_jobs client (requests w) in_progress_states = inr resp ->
  let n := total_elements resp in
  let w' := snd (tick rt client w) in
  (N_CONCURRENT_JOB_IN_PROGRESS <= n ->
     new_submissions w w' = 0%nat
     /\ db_file w' = db_file w
     /\ payload_files w' = payload_files w
     /\ forall rows, stored_rows (db_file w) = Some rows -> df w' = rows)
  /\ Z.of_nat (new_submissions w w') <= Z.max 0 (N_CONCURRENT_JOB_IN_PROGRESS - n)
  /\ (n <= N_CONCURRENT_JOB_IN_PROGRESS ->
      n + Z.of_nat (new_submissions w w') <= N_CONCURRENT_JOB_IN_PROGRESS).
Proof.
  intros rt client w resp Hs n w'.
  destruct (tick_submissions rt client w) as (submitted & qs & H1 & H2 & _ & _ & Hb).
  specialize (Hb resp Hs).
  rewrite (new_submissions_length w w' submitted qs H1 H2).
  split; [|split].
  - intros Hn.
    destruct (tick_without_free_spot rt client w resp Hs Hn) as (Hf & Hp & _ & Hd).
    split; [|split; [exact Hf | split; [exact Hp | exact Hd]]].
    subst n. lia.
  - exact Hb.
  - intros Hn. subst n. lia.
Qed.

Lemma admission_cap_witness :
  let w := Examples.on_disk
             [Examples.row "routea" "TomtomRouteJob" 7 500 None None None]
             [(payload_path Examples.rt "routea", "route")] in
  search_jobs Examples.DummyTomtomClient (requests w) in_progress_states
    = inr {| content := [{| ji_job_id := 1; ji_state := TomtomJobState.DONE |}];
             total_elements := 1 |}
  /\ Z.of_nat (new_submissions w (snd (tick Examples.rt Examples.DummyTomtomClient w))) <= 4.
Proof.
  intros w. split; [reflexivity|].
  exact (proj1 (proj2 (admission_cap Examples.rt Examples.DummyTomtomClient w _ eq_refl))).
Defined.

(** Counterexample to C1 as stated: the remote service reports 6 jobs in
    progress; nothing is submitted, and still the jobs in progress plus the
    new submissions exceed 5, and the number of submissions, 0, is not at
    most 5 - 6. *)
Lemma cap_exceeded_by_remote_alone :
  let client := Examples.client_with 6 [] TomtomJobState.DONE [] in
  let w' := snd (tick Examples.rt client Examples.w0) in
  search_jobs client (requests Examples.w0) in_progress_states
    = inr {| content := []; total_elements := 6 |}
  /\ new_submissions Examples.w0 w' = 0%nat
  /\ ~ (6 + Z.of_nat (new_submissions Examples.w0 w') <= N_CONCURRENT_JOB_IN_PROGRESS)
  /\ ~ (Z.of_nat (new_submissions Examples.w0 w') <= N_CONCURRENT_JOB_IN_PROGRESS - 6).
Proof.
  repeat split; vm_compute; intros H; apply H; reflexivity.
Qed.









(** ** Completion of the old submitted items *)



Section UnchangedStoreOps.
Context {X : Type} (f : World -> X).
Hypothesis f_df : forall v w, f (set_df v w) = f w.
Hypothesis f_file : forall v w, f (set_db_file v w) = f w.

Lemma unchanged_read : unchanged f read.
Proof.
  intros w. unfold read. destruct (db_file w); simpl; auto.
Qed.

Lemma unchanged_write : unchanged f write.
Proof.
  unfold write.
  repeat first [ apply unchanged_read
               | apply unchanged_modify; intros ?; first [apply f_df | apply f_file]
               | unchanged_step ].
Qed.

Lemma unchanged_db_update items force : unchanged f (db_update items force).
Proof.
  unfold db_update, add.
  repeat first [ apply unchanged_write
               | apply unchanged_modify; intros ?; cbv beta; apply f_df
               | unchanged_step ].
Qed.

End UnchangedStoreOps.

Lemma write_returns : forall w disk,
  stored_rows (db_file w) = Some disk ->
  exists w', write w = (inr tt, w')
             /\ df w' = drop_duplicates (df w ++ disk)
             /\ db_file w' = Parquet (df w').
Proof.
  intros w disk Hd. unfold write, bind, get, read, modify.
  destruct (db_file w) as [|rows|why]; simpl in Hd; inversion Hd; subst;
    eexists; repeat split; reflexivity.
Qed.

Lemma for_each_add : forall items w,
  fst (for_each items add w) = inr tt
  /\ df (snd (for_each items add w)) = (df w ++ map row_of_item items)%list
  /\ db_file (snd (for_each items add w)) = db_file w.
Proof.
  induction items as [|x items IH]; intros w; simpl.
  - rewrite app_nil_r. repeat split.
  - rewrite bind_run.
    change (add x w) with (@inr exn unit tt, set_df (df w ++ [row_of_item x]) w).
    cbv beta iota.
    destruct (IH (set_df (df w ++ [row_of_item x]) w)) as (H1 & H2 & H3).
    destruct (for_each items add (set_df (df w ++ [row_of_item x]) w)) as [[e|[]] w'];
      simpl in *; try discriminate.
    split; [reflexivity|]. split; [|exact H3].
    rewrite H2. rewrite <- app_assoc. reflexivity.
Qed.

(** [db.update(items, True)] when the file of the store can be read. *)
Lemma db_update_write : forall items w disk,
  stored_rows (db_file w) = Some disk ->
  exists w',
    db_update items true w = (inr tt, w')
    /\ df w' = drop_duplicates
                 ((filter (fun r => r_uid r ∉ map uid items) (df w)
                   ++ map row_of_item items) ++ disk)
    /\ db_file w' = Parquet (df w')
    /\ payload_files w' = payload_files w.
Proof.
  intros items w disk Hd.
  pose proof (unchanged_db_update payload_files (fun _ _ => eq_refl) (fun _ _ => eq_refl)
                items true w) as Hp.
  unfold db_update in *. rewrite bind_run in *. unfold modify at 1 in Hp. unfold modify at 1.
  set (w1 := set_df (filter (fun r => r_uid r ∉ map uid items) (df w)) w) in *.
  rewrite bind_run in *.
  destruct (for_each_add items w1) as (H1 & H2 & H3).
  destruct (for_each items add w1) as [[e|[]] w2]; simpl in H1, H2, H3; try discriminate.
  destruct (write_returns w2 disk) as (w' & Hw & Hdf & Hfile).
  { rewrite H3. exact Hd. }
  rewrite Hw in *. exists w'. split; [reflexivity|].
  split; [rewrite Hdf, H2; reflexivity|]. split; [exact Hfile | exact Hp].
Qed.














(** ** The records the reconciliation pass works on *)












(** * Further properties of the item operations *)

(** [cancel] returns exactly on an IS_WAITING item; it then sets the
    cancellation timestamp to the clock reading, which makes the item
    CANCELED, and changes nothing else of the item; on any other status it
    raises and leaves the item and the world as they were. *)
Lemma cancel_outcome : forall (it : QueueItem) (w : World),
  if QueueItemStatus.eqb (get_status it) QueueItemStatus.IS_WAITING
  then cancel (it, w)
       = (inr tt, (set_cancelled_timestamp (Some (clock w (clock_reads w))) it,
                   set_clock_reads (S (clock_reads w)) w))
       /\ get_status (set_cancelled_timestamp (Some (clock w (clock_reads w))) it)
          = QueueItemStatus.CANCELED
  else cancel (it, w)
       = (inl (ValueError ("Cannot cancel a job that is not in the WAITING state ("
                           ++ uid it ++ ").")), (it, w)).
Proof.
  intros it w.
  destruct it as [u nm rtp pay pr cr up su co ca er j lnk].
  destruct er, co, su, ca; split || idtac; reflexivity.
Qed.

(** [error] returns on every item: it logs a warning (and the message, if
    one is given, as an error), sets the error timestamp to the clock
    reading and thereby puts the item in HAS_ERROR, whatever its status
    was; the other attributes, the files and the store are untouched. *)
Lemma error_outcome : forall (message : option string) (it : QueueItem) (w : World),
  exists w',
    error message (it, w)
      = (inr tt, (set_error_timestamp (Some (clock w (clock_reads w))) it, w'))
    /\ get_status (set_error_timestamp (Some (clock w (clock_reads w))) it)
       = QueueItemStatus.HAS_ERROR
    /\ log w' = (log w ++ (WARNING, "Error generated for job " ++ uid it ++ ".")%string
                          :: match message with
                             | Some m => [(ERROR, m)]
                             | None => []
                             end)%list
    /\ payload_files w' = payload_files w
    /\ store w' = store w
    /\ requests w' = requests w.
Proof.
  intros message it w.
  destruct it as [u nm rtp pay pr cr up su co ca er j lnk].
  destruct w as [inst tbl file files clk reads lg reqs].
  destruct message; eexists; (split; [reflexivity|]); cbn;
    repeat split; try reflexivity; rewrite <- app_assoc; reflexivity.
Qed.

(** X1.  An item that is COMPLETED or HAS_ERROR is left alone: [submit],
    [cancel], [complete] and [update] raise [ValueError] without changing
    the item or the world (no request is sent, no file is written), and
    [store_payload] returns without writing. *)
Theorem terminal_item_is_left_alone : forall (client : TomtomClient) (it : QueueItem)
    (w : World) (n : option string) (p : option Z) (c : option bool)
    (pl : option TomtomJob),
  get_status it = QueueItemStatus.COMPLETED \/ get_status it = QueueItemStatus.HAS_ERROR ->
  (exists msg, submit client (it, w) = (inl (ValueError msg), (it, w)))
  /\ (exists msg, cancel (it, w) = (inl (ValueError msg), (it, w)))
  /\ (exists msg, complete client (it, w) = (inl (ValueError msg), (it, w)))
  /\ (exists msg, update n p c pl (it, w) = (inl (ValueError msg), (it, w)))
  /\ store_payload (it, w) = (inr tt, (it, w)).
Proof.
  intros client it w n p c pl H.
  rewrite get_status_projection in H.
  destruct it as [u nm rtp pay pr cr up su co ca er j lnk]. simpl in H.
  destruct er, co, su, ca; simpl in H; destruct H as [H|H]; try discriminate H;
    repeat split; try (eexists; reflexivity); reflexivity.
Qed.

Lemma terminal_item_is_left_alone_witness :
  let it := set_error_timestamp (Some 900)
              (Examples.item "u1" (Some Examples.route_job) 5 500 (Some 600) None (Some 7)) in
  (get_status it = QueueItemStatus.COMPLETED \/ get_status it = QueueItemStatus.HAS_ERROR)
  /\ store_payload (it, Examples.w0) = (inr tt, (it, Examples.w0)).
Proof.
  intros it. split; [right; reflexivity|].
  exact (proj2 (proj2 (proj2 (proj2
    (terminal_item_is_left_alone Examples.DummyTomtomClient it Examples.w0
       None None None None (or_intror eq_refl)))))).
Defined.

(** X2.  Cancelling a waiting item through [update] and then lifting the
    cancellation gives the item back: after [update(cancel=True)] it is
    CANCELED, after [update(cancel=False)] it is IS_WAITING again and
    differs from the original item in [updated_ts] only. *)
Theorem cancel_then_uncancel : forall (it : QueueItem) (w : World),
  get_status it = QueueItemStatus.IS_WAITING ->
  exists it1 w1 w2,
    update None None (Some true) None (it, w) = (inr tt, (it1, w1))
    /\ get_status it1 = QueueItemStatus.CANCELED
    /\ update None None (Some false) None (it1, w1)
       = (inr tt, (set_updated_timestamp (Some (clock w (S (S (clock_reads w))))) it, w2))
    /\ get_status (set_updated_timestamp (Some (clock w (S (S (clock_reads w))))) it)
       = QueueItemStatus.IS_WAITING
    /\ payload_files w2 = payload_files w
    /\ store w2 = store w.
Proof.
  intros it w H.
  destruct (get_status_waiting_inv it H) as (He & Hc & Hs & Hx).
  destruct it as [u nm rtp pay pr cr up su co ca er j lnk]; simpl in *; subst.
  destruct w as [inst tbl file files clk reads lg reqs].
  do 3 eexists. split; [reflexivity|]. split; [reflexivity|].
  split; [reflexivity|]. repeat split.
Qed.

Lemma cancel_then_uncancel_witness :
  let it := Examples.item "u1" (Some Examples.route_job) 5 500 None None None in
  get_status it = QueueItemStatus.IS_WAITING
  /\ exists it1 w1 w2,
       update None None (Some true) None (it, Examples.w0) = (inr tt, (it1, w1))
       /\ update None None (Some false) None (it1, w1)
          = (inr tt, (set_updated_timestamp (Some 1002) it, w2)).
Proof.
  intros it. split; [reflexivity|].
  destruct (cancel_then_uncancel it Examples.w0 eq_refl) as (it1 & w1 & w2 & H1 & _ & H2 & _).
  exists it1, w1, w2. split; [exact H1 | exact H2].
Defined.

(** X3.  The life of an item that goes well: a waiting item whose payload has
    an endpoint is submitted, the response is not an error and carries the
    job id, then [complete] finds the job DONE.  After [submit] the item is
    SUBMITTED with that job id; after [complete] it is COMPLETED, its two
    timestamps are the two clock readings, the status endpoint was asked
    about the job id right after the submission request, and the payload
    file is gone. *)
Theorem submit_then_complete : forall (client : TomtomClient) (it : QueueItem) (w : World)
    (p : TomtomJob) request answer (response : TomtomResponseAnalysis)
    (info : TomtomResponseStatus),
  get_status it = QueueItemStatus.IS_WAITING ->
  payload it = Some p ->
  submit_endpoint client (job_class p) = Some (request, answer) ->
  answer (requests w) p = inr response ->
  String.eqb (lower (ra_response_status response)) "error" = false ->
  status client (request p :: requests w) (ra_job_id response) = inr info ->
  rs_job_state info = TomtomJobState.DONE ->
  exists it1 w1 it2 w2,
    submit client (it, w) = (inr tt, (it1, w1))
    /\ get_status it1 = QueueItemStatus.SUBMITTED
    /\ tomtom_job_id it1 = ra_job_id response
    /\ complete client (it1, w1) = (inr tt, (it2, w2))
    /\ get_status it2 = QueueItemStatus.COMPLETED
    /\ submitted_timestamp it2 = Some (clock w (clock_reads w))
    /\ completed_timestamp it2 = Some (clock w (S (clock_reads w)))
    /\ requests w2 = GetStatus (ra_job_id response) :: request p :: requests w
    /\ payload_files w2 = delete (payload_link it) (payload_files w)
    /\ store w2 = store w.
Proof.
  intros client it w p request answer response info Hst Hp Hend Hans Herr Hinfo Hdone.
  destruct (get_status_waiting_inv it Hst) as (He & Hc & Hs & Hx).
  destruct it as [u nm rtp pay pr cr up su co ca er j lnk]; simpl in *; subst.
  destruct w as [inst tbl file files clk reads lg reqs]. simpl in *.
  destruct p as [[| |] d]; simpl in Hend; inversion Hend; subst; clear Hend;
    do 4 eexists;
    (split; [ run_item; cbv beta iota delta [isinstance JobClass_eqb job_class];
              run_item; rewrite Hans; cbv beta iota; rewrite Herr; reflexivity |]);
    (split; [reflexivity|]); (split; [reflexivity|]);
    (split; [ run_item; rewrite Hinfo; cbv beta iota; rewrite Hdone;
              cbv beta iota delta [TomtomJobState.eqb TomtomJobState.value Z.eqb negb];
              run_item; reflexivity |]);
    repeat split.
Qed.

Lemma submit_then_complete_witness :
  let it := Examples.item "r1" (Some Examples.route_job) 5 500 None None None in
  get_status it = QueueItemStatus.IS_WAITING
  /\ exists it1 w1 it2 w2,
       submit Examples.DummyTomtomClient (it, Examples.w0) = (inr tt, (it1, w1))
       /\ complete Examples.DummyTomtomClient (it1, w1) = (inr tt, (it2, w2))
       /\ get_status it2 = QueueItemStatus.COMPLETED.
Proof.
  intros it. split; [reflexivity|].
  destruct (submit_then_complete Examples.DummyTomtomClient it Examples.w0
              Examples.route_job _ _ _ _ eq_refl eq_refl eq_refl eq_refl eq_refl
              eq_refl eq_refl)
    as (it1 & w1 & it2 & w2 & H1 & _ & _ & H2 & H3 & _).
  exists it1, w1, it2, w2. auto.
Defined.



(** * Further properties of the constructor and of loading *)

(** X5.  [QueueItem.new] returns for every job: the item is IS_WAITING, its uid
    is the digest of the job's JSON followed by the name, its creation
    timestamp is the default; a payload file that is already at the item's
    path is kept as it is (nothing at all changes), otherwise the JSON of
    the job is written there; no other file, and neither the store nor the
    clock, is touched. *)
Theorem QueueItem_new_outcome : forall (rt : Runtime) (nm : string) (job : TomtomJob)
    (prio : Z) (w : World),
  exists w',
    QueueItem_new rt nm job prio w = (inr (new_item rt nm job prio), w')
    /\ get_status (new_item rt nm job prio) = QueueItemStatus.IS_WAITING
    /\ match payload_files w !! payload_path rt (md5 rt job nm) with
       | Some _ => w' = w
       | None =>
           payload_files w'
             = <[payload_path rt (md5 rt job nm) := to_dict job]> (payload_files w)
           /\ store w' = store w /\ clock_reads w' = clock_reads w
           /\ log w' = log w /\ requests w' = requests w
       end.
Proof.
  intros rt nm job prio w.
  unfold QueueItem_new, QueueItem_init. rewrite bind_run. cbn [ret]. cbv beta iota zeta.
  fold (new_item rt nm job prio). cbn [payload_link new_item].
  destruct (payload_files w !! payload_path rt (md5 rt job nm)) as [d|] eqn:E.
  - exists w. repeat split.
  - destruct w as [inst tbl file files clk reads lg reqs]. cbn [payload_files] in E.
    eexists. split; [reflexivity|]. split; [reflexivity|].
    cbn. repeat split.
    rewrite delete_id by exact E. reflexivity.
Qed.

(** X6.  Round trip through the table: the record written for an item as the
    queue keeps it, whose payload file holds the JSON of its payload and is
    accepted by the decoder of its class, is loaded back as the very same
    item, in whatever status it is, and loading changes nothing. *)
Theorem row_round_trip : forall (rt : Runtime) (it : QueueItem) (w : World) (p : TomtomJob),
  well_kept rt it ->
  payload it = Some p ->
  payload_files w !! payload_link it = Some (to_dict p) ->
  from_dict_ok rt (job_class p) (to_dict p) = true ->
  QueueItem_from_dict rt (row_of_item it) w = (inr it, w).
Proof.
  intros rt it w p (p' & Hp' & Hcls & Hu & Hlnk & Hrt) Hp Hfile Hok.
  rewrite Hp in Hp'. inversion Hp'; subst p'. clear Hp'.
  destruct it as [u nm rtp pay pr cr up su co ca er j lnk]. simpl in *. subst.
  destruct p as [cls d]. simpl in *.
  unfold QueueItem_from_dict, row_of_item; cbn [r_report_type r_payload_link r_name
    r_priority r_created_timestamp r_uid r_updated_timestamp r_submitted_timestamp
    r_completed_timestamp r_cancelled_timestamp r_error_timestamp r_tomtom_job_id
    payload payload_class_name job_class
    uid name report_type priority created_timestamp updated_timestamp
    submitted_timestamp completed_timestamp cancelled_timestamp error_timestamp
    tomtom_job_id payload_link].
  apply String.eqb_neq in Hu.
  destruct Hcls as [-> | ->]; cbn [class_name String.eqb Ascii.eqb Bool.eqb];
    rewrite bind_run; cbn [ret]; rewrite bind_run; cbn [get]; rewrite bind_run;
    rewrite Hfile, Hok; cbn [ret];
    unfold QueueItem_init; rewrite bind_run, Hu; cbn [ret]; cbv beta iota zeta;
    cbn [payload_link]; rewrite Hfile; reflexivity.
Qed.

Lemma row_round_trip_witness :
  let it := Examples.item "b" (Some Examples.route_job) 5 500 (Some 600) None (Some 42) in
  let w := Examples.on_disk [] [(payload_path Examples.rt "b", "route")] in
  well_kept Examples.rt it
  /\ payload it = Some Examples.route_job
  /\ payload_files w !! payload_link it = Some (to_dict Examples.route_job)
  /\ from_dict_ok Examples.rt (job_class Examples.route_job) (to_dict Examples.route_job) = true
  /\ QueueItem_from_dict Examples.rt (row_of_item it) w = (inr it, w).
Proof.
  intros it w.
  assert (Hk : well_kept Examples.rt it).
  { exists Examples.route_job. repeat split; try reflexivity; [left; reflexivity | discriminate]. }
  split; [exact Hk|]. split; [reflexivity|]. split; [reflexivity|]. split; [reflexivity|].
  exact (row_round_trip Examples.rt it w Examples.route_job Hk eq_refl eq_refl eq_refl).
Defined.

(** * Further properties of the store *)

Lemma rows_with_uid_app : forall u l1 l2,
  rows_with_uid u (l1 ++ l2) = (rows_with_uid u l1 ++ rows_with_uid u l2)%list.
Proof. intros. unfold rows_with_uid. apply filter_app. Qed.

Lemma rows_with_uid_nil : forall u l,
  u ∉ map r_uid l -> rows_with_uid u l = [].
Proof.
  intros u l H. unfold rows_with_uid. induction l as [|x l IH]; [reflexivity|].
  rewrite filter_cons. case_decide as Hx.
  - exfalso. apply H. simpl. rewrite Hx. now left.
  - apply IH. intros Hin. apply H. simpl. now right.
Qed.

Lemma rows_with_uid_filter_out : forall (uids : list string) u l,
  rows_with_uid u (filter (fun r => r_uid r ∉ uids) l)
  = if decide (u ∈ uids) then [] else rows_with_uid u l.
Proof.
  intros uids u l. unfold rows_with_uid.
  induction l as [|x l IH]; simpl.
  - destruct (decide (u ∈ uids)); reflexivity.
  - rewrite !filter_cons. destruct (decide (r_uid x ∉ uids)) as [Hx|Hx].
    + rewrite filter_cons. destruct (decide (r_uid x = u)) as [Hu|Hu].
      * subst u. destruct (decide (r_uid x ∈ uids)); [contradiction|].
        rewrite IH. destruct (decide (r_uid x ∈ uids)); [contradiction | reflexivity].
      * exact IH.
    + destruct (decide (r_uid x = u)) as [Hu|Hu].
      * subst u. rewrite IH. destruct (decide (r_uid x ∈ uids)); [reflexivity|].
        exfalso. apply Hx. assumption.
      * exact IH.
Qed.

Lemma rows_with_uid_of_items : forall items it,
  NoDup (map uid items) -> it ∈ items ->
  rows_with_uid (uid it) (map row_of_item items) = [row_of_item it].
Proof.
  induction items as [|x items IH]; intros it Hnd Hin; [inversion Hin|].
  simpl in Hnd. apply NoDup_cons in Hnd as [Hx Hnd].
  simpl. unfold rows_with_uid. rewrite filter_cons. simpl.
  apply elem_of_cons in Hin as [->|Hin].
  - destruct (decide (uid x = uid x)); [|contradiction].
    f_equal. apply rows_with_uid_nil.
    rewrite map_map. simpl. exact Hx.
  - destruct (decide (uid x = uid it)) as [He|He].
    + exfalso. apply Hx. rewrite He. apply list_elem_of_fmap. eauto.
    + apply IH; assumption.
Qed.

(** X7.  [db.update(items)] without writing, for items with distinct uids:
    afterwards the table holds exactly one record for the uid of each item,
    the record of that item; the records of every other uid are as before;
    the kept records come first, in their order, followed by the records of
    the items in the order of the list; the file is untouched. *)
Theorem db_update_replaces_by_uid : forall (items : list QueueItem) (w : World),
  NoDup (map uid items) ->
  exists w',
    db_update items false w = (inr tt, w')
    /\ df w' = (filter (fun r => r_uid r ∉ map uid items) (df w)
                ++ map row_of_item items)%list
    /\ (forall it, it ∈ items -> rows_with_uid (uid it) (df w') = [row_of_item it])
    /\ (forall u, u ∉ map uid items -> rows_with_uid u (df w') = rows_with_uid u (df w))
    /\ db_file w' = db_file w
    /\ payload_files w' = payload_files w.
Proof.
  intros items w Hnd.
  pose proof (unchanged_db_update payload_files (fun _ _ => eq_refl) (fun _ _ => eq_refl)
                items false w) as Hp.
  unfold db_update in *. rewrite bind_run in *. unfold modify at 1 in Hp. unfold modify at 1.
  set (w1 := set_df (filter (fun r => r_uid r ∉ map uid items) (df w)) w) in *.
  rewrite bind_run in *.
  destruct (for_each_add items w1) as (H1 & H2 & H3).
  destruct (for_each items add w1) as [[e|[]] w2]; simpl in H1, H2, H3; try discriminate.
  cbn [ret] in *. exists w2. split; [reflexivity|].
  assert (Hdf : df w2 = (filter (fun r => r_uid r ∉ map uid items) (df w)
                         ++ map row_of_item items)%list) by exact H2.
  split; [exact Hdf|]. split; [|split; [|split; [exact H3 | exact Hp]]].
  - intros it Hit. rewrite Hdf, rows_with_uid_app, rows_with_uid_filter_out.
    destruct (decide (uid it ∈ map uid items)) as [_|Hn].
    + simpl. apply rows_with_uid_of_items; assumption.
    + exfalso. apply Hn. apply list_elem_of_fmap. eauto.
  - intros u Hu. rewrite Hdf, rows_with_uid_app, rows_with_uid_filter_out.
    destruct (decide (u ∈ map uid items)); [contradiction|].
    rewrite (rows_with_uid_nil u (map row_of_item items)); [apply app_nil_r|].
    rewrite map_map. exact Hu.
Qed.

Lemma db_update_replaces_by_uid_witness :
  let old := Examples.row "u1" "TomtomRouteJob" 5 400 None None None in
  let it := Examples.item "u1" (Some Examples.route_job) 9 400 None None None in
  let w := set_df [old] Examples.w0 in
  NoDup (map uid [it])
  /\ exists w', db_update [it] false w = (inr tt, w')
                /\ rows_with_uid "u1" (df w') = [row_of_item it].
Proof.
  intros old it w.
  assert (Hnd : NoDup (map uid [it])) by (repeat constructor; set_solver).
  split; [exact Hnd|].
  destruct (db_update_replaces_by_uid [it] w Hnd) as (w' & H1 & _ & H2 & _).
  exists w'. split; [exact H1|]. apply (H2 it). now left.
Defined.

Lemma drop_duplicates_from_all_seen : forall l seen,
  (forall u, u ∈ map r_uid l -> u ∈ seen) -> drop_duplicates_from seen l = [].
Proof.
  induction l as [|x l IH]; intros seen H; simpl; [reflexivity|].
  case_bool_decide as Hx.
  - apply IH. intros u Hu. apply H. simpl. now right.
  - exfalso. apply Hx. apply H. simpl. now left.
Qed.

Lemma drop_duplicates_from_NoDup_prefix : forall l seen l',
  NoDup (map r_uid l) ->
  (forall u, u ∈ map r_uid l -> u ∉ seen) ->
  (forall u, u ∈ map r_uid l' -> u ∈ map r_uid l \/ u ∈ seen) ->
  drop_duplicates_from seen (l ++ l') = l.
Proof.
  induction l as [|x l IH]; intros seen l' Hnd Hs Hl'; simpl.
  - apply drop_duplicates_from_all_seen. intros u Hu.
    destruct (Hl' u Hu) as [H|H]; [inversion H | exact H].
  - simpl in Hnd. apply NoDup_cons in Hnd as [Hx Hnd].
    case_bool_decide as Hin.
    + exfalso. apply (Hs (r_uid x)); [simpl; now left | exact Hin].
    + f_equal. apply IH; [exact Hnd| |].
      * intros u Hu Hin'. apply elem_of_cons in Hin' as [->|Hin']; [contradiction|].
        apply (Hs u); [simpl; now right | exact Hin'].
      * intros u Hu. destruct (Hl' u Hu) as [H|H].
        -- simpl in H. apply elem_of_cons in H as [->|H]; [right; now left | now left].
        -- right. now right.
Qed.

Lemma drop_duplicates_twice : forall l,
  NoDup (map r_uid l) -> drop_duplicates (l ++ l) = l.
Proof.
  intros l H. apply drop_duplicates_from_NoDup_prefix; [exact H| |].
  - intros u _. apply not_elem_of_nil.
  - intros u Hu. now left.
Qed.

Lemma drop_duplicates_NoDup_id : forall l,
  NoDup (map r_uid l) -> drop_duplicates l = l.
Proof.
  intros l H. rewrite <- (app_nil_r l) at 1.
  apply drop_duplicates_from_NoDup_prefix; [exact H| |].
  - intros u _. apply not_elem_of_nil.
  - intros u Hu. inversion Hu.
Qed.

(** X8.  A write settles the store: when the file can be read and [write]
    returns, the table in memory is the table in the file and has each uid
    once, so that reading the file again gives the same table and a second
    write changes nothing at all. *)
Theorem write_then_read_or_write_again : forall (w : World) (disk : list Row),
  stored_rows (db_file w) = Some disk ->
  exists w',
    write w = (inr tt, w')
    /\ db_file w' = Parquet (df w')
    /\ NoDup (map r_uid (df w'))
    /\ read w' = (inr tt, w')
    /\ write w' = (inr tt, w').
Proof.
  intros w disk Hd.
  destruct (write_returns w disk Hd) as (w' & Hw & Hdf & Hfile).
  assert (Hnd : NoDup (map r_uid (df w'))).
  { rewrite Hdf. apply drop_duplicates_from_NoDup. }
  exists w'. split; [exact Hw|]. split; [exact Hfile|]. split; [exact Hnd|].
  destruct w' as [inst tbl file files clk reads lg reqs]. simpl in *. subst file.
  split.
  - reflexivity.
  - unfold write, bind, get, read, modify. simpl.
    rewrite drop_duplicates_twice by exact Hnd. reflexivity.
Qed.

Lemma write_then_read_or_write_again_witness :
  let r := Examples.row "u1" "TomtomRouteJob" 5 400 None None None in
  let w := set_df [r; r] (Examples.on_disk [r] []) in
  stored_rows (db_file w) = Some [r]
  /\ exists w', write w = (inr tt, w') /\ write w' = (inr tt, w').
Proof.
  intros r w. split; [reflexivity|].
  destruct (write_then_read_or_write_again w [r] eq_refl) as (w' & H1 & _ & _ & _ & H2).
  exists w'. split; assumption.
Defined.

(** X9.  Emptying the table in memory does not empty the store: [empty]
    followed by [write] reads the file again and writes its records back
    (each uid once, the first record of each), so every uid of the file is
    still there; when the file held each uid once, the file and the table
    are exactly what the file was. *)
Theorem empty_then_write_restores_the_file : forall (w : World) (disk : list Row),
  stored_rows (db_file w) = Some disk ->
  exists w',
    (empty ;;; write) w = (inr tt, w')
    /\ df w' = drop_duplicates disk
    /\ db_file w' = Parquet (df w')
    /\ (forall u, u ∈ map r_uid disk -> u ∈ map r_uid (df w'))
    /\ (NoDup (map r_uid disk) -> df w' = disk).
Proof.
  intros w disk Hd. rewrite bind_run. unfold empty, modify. cbv beta iota.
  destruct (write_returns (set_df [] w) disk) as (w' & Hw & Hdf & Hfile).
  { exact Hd. }
  exists w'. split; [exact Hw|]. simpl in Hdf. split; [exact Hdf|].
  split; [exact Hfile|]. split.
  - intros u Hu. rewrite Hdf. apply drop_duplicates_from_uids; [apply not_elem_of_nil | exact Hu].
  - intros Hnd. rewrite Hdf. apply drop_duplicates_NoDup_id. exact Hnd.
Qed.

Lemma empty_then_write_restores_the_file_witness :
  let r := Examples.row "u1" "TomtomRouteJob" 5 400 None None None in
  let w := set_df [r] (Examples.on_disk [r] []) in
  stored_rows (db_file w) = Some [r]
  /\ exists w', (empty ;;; write) w = (inr tt, w') /\ df w' = [r].
Proof.
  intros r w. split; [reflexivity|].
  destruct (empty_then_write_restores_the_file w [r] eq_refl) as (w' & H1 & H2 & _).
  exists w'. split; [exact H1 | exact H2].
Defined.

(** * Further properties of the admin functions *)

Lemma QueueItem_new_run : forall rt nm job prio w,
  exists w',
    QueueItem_new rt nm job prio w = (inr (new_item rt nm job prio), w')
    /\ store w' = store w
    /\ db_instantiated w' = db_instantiated w
    /\ payload_files w' !! payload_path rt (md5 rt job nm)
       = Some (match payload_files w !! payload_path rt (md5 rt job nm) with
               | Some d => d
               | None => to_dict job
               end).
Proof.
  intros rt nm job prio w.
  unfold QueueItem_new, QueueItem_init. rewrite bind_run. cbn [ret]. cbv beta iota zeta.
  fold (new_item rt nm job prio). cbn [payload_link new_item].
  destruct (payload_files w !! payload_path rt (md5 rt job nm)) as [d|] eqn:E.
  - exists w. repeat split. exact E.
  - destruct w as [inst tbl file files clk reads lg reqs].
    eexists. split; [reflexivity|]. cbn. repeat split. apply lookup_insert_eq.
Qed.

Lemma from_dict_new_item : forall rt nm job prio w,
  job_class job = TomtomRouteJob \/ job_class job = TomtomAreaJob ->
  md5 rt job nm <> EmptyString ->
  payload_files w !! payload_path rt (md5 rt job nm) = Some (to_dict job) ->
  from_dict_ok rt (job_class job) (to_dict job) = true ->
  QueueItem_from_dict rt (row_of_item (new_item rt nm job prio)) w
  = (inr (new_item rt nm job prio), w).
Proof.
  intros rt nm job prio w Hcls Hu Hfile Hok.
  destruct job as [cls d]. simpl in *.
  unfold QueueItem_from_dict, row_of_item, new_item, md5 in *;
    cbn [r_report_type r_payload_link r_name
    r_priority r_created_timestamp r_uid r_updated_timestamp r_submitted_timestamp
    r_completed_timestamp r_cancelled_timestamp r_error_timestamp r_tomtom_job_id
    payload payload_class_name job_class to_dict
    uid name report_type priority created_timestamp updated_timestamp
    submitted_timestamp completed_timestamp cancelled_timestamp error_timestamp
    tomtom_job_id payload_link] in *.
  apply String.eqb_neq in Hu.
  destruct Hcls as [-> | ->]; cbn [class_name String.eqb Ascii.eqb Bool.eqb];
    rewrite bind_run; cbn [ret]; rewrite bind_run; cbn [get]; rewrite bind_run;
    rewrite Hfile, Hok; cbn [ret];
    unfold QueueItem_init; rewrite bind_run, Hu; cbn [ret]; cbv beta iota zeta;
    cbn [payload_link]; rewrite Hfile; reflexivity.
Qed.

(** X10.  Adding a job whose uid is already in the store changes nothing in the
    table: the record in place, whatever its status, is the first of its
    uid when [write] merges, so the store keeps it and drops the new one.
    (The store is one in which each uid occurs once, as [write] leaves
    it.) *)
Theorem add_job_keeps_the_existing_record : forall (rt : Runtime) (nm : string)
    (job : TomtomJob) (prio : Z) (w : World) (rows : list Row),
  db_file w = Parquet rows ->
  (db_instantiated w = true -> df w = rows) ->
  NoDup (map r_uid rows) ->
  md5 rt job nm ∈ map r_uid rows ->
  exists w',
    priority_queue_add_job rt nm job prio w = (inr tt, w')
    /\ df w' = rows
    /\ db_file w' = Parquet rows.
Proof.
  intros rt nm job prio w rows Hfile Hdf Hnd Hin.
  unfold priority_queue_add_job. rewrite bind_run.
  destruct (QueueItem_new_run rt nm job prio w) as (w1 & Hnew & Hst & Hinst & _).
  rewrite Hnew. unfold store in Hst. inversion Hst as [[Hdf1 Hfile1]].
  rewrite bind_run.
  assert (Hw2 : exists w2, PriorityQueueDB_instance w1 = (inr tt, w2)
                           /\ df w2 = rows /\ db_file w2 = Parquet rows).
  { unfold PriorityQueueDB_instance. rewrite bind_run. cbn [get].
    destruct (db_instantiated w1) eqn:Ei.
    - exists w1. split; [reflexivity|]. split; [|congruence].
      rewrite Hdf1. apply Hdf. congruence.
    - rewrite bind_run. unfold read. rewrite Hfile1, Hfile.
      eexists. split; [reflexivity|]. simpl. split; [reflexivity|congruence]. }
  destruct Hw2 as (w2 & Hi & Hdf2 & Hfile2). rewrite Hi.
  rewrite bind_run. unfold add, modify. cbv beta iota.
  destruct (write_returns (set_df (df w2 ++ [row_of_item (new_item rt nm job prio)]) w2) rows)
    as (w' & Hw & Hdfw & Hfilew).
  { simpl. rewrite Hfile2. reflexivity. }
  exists w'. rewrite Hw. split; [reflexivity|].
  assert (Hrows : df w' = rows).
  { rewrite Hdfw. simpl. rewrite Hdf2, <- app_assoc.
    apply drop_duplicates_from_NoDup_prefix; [exact Hnd| |].
    - intros u _. apply not_elem_of_nil.
    - intros u Hu. left. simpl in Hu. apply elem_of_cons in Hu as [->|Hu]; assumption. }
  split; [exact Hrows|]. rewrite Hfilew, Hrows. reflexivity.
Qed.

Lemma add_job_keeps_the_existing_record_witness :
  let r := Examples.row "routea" "TomtomRouteJob" 1 400 (Some 450) None (Some 3) in
  let w := Examples.on_disk [r] [] in
  db_file w = Parquet [r]
  /\ exists w', priority_queue_add_job Examples.rt "a" Examples.route_job 7 w = (inr tt, w')
                /\ df w' = [r].
Proof.
  intros r w. split; [reflexivity|].
  destruct (add_job_keeps_the_existing_record Examples.rt "a" Examples.route_job 7 w [r])
    as (w' & H1 & H2 & _).
  - reflexivity.
  - intros H. discriminate H.
  - repeat constructor. set_solver.
  - now left.
  - exists w'. split; assumption.
Defined.

(** X11.  A job added to a store that does not exist yet is what [list_next]
    returns: in a fresh process without store file and without the payload
    file, [priority_queue_add_job] of a route or area job writes the file
    with the one record of the new item, and [priority_queue_list_next]
    then returns exactly that item, waiting and with its payload loaded,
    and changes nothing. *)
Theorem add_job_then_list_next : forall (rt : Runtime) (nm : string) (job : TomtomJob)
    (prio : Z) (w : World),
  db_instantiated w = false ->
  db_file w = NoFile ->
  payload_files w !! payload_path rt (md5 rt job nm) = None ->
  job_class job = TomtomRouteJob \/ job_class job = TomtomAreaJob ->
  md5 rt job nm <> EmptyString ->
  from_dict_ok rt (job_class job) (to_dict job) = true ->
  exists w1,
    priority_queue_add_job rt nm job prio w = (inr tt, w1)
    /\ df w1 = [row_of_item (new_item rt nm job prio)]
    /\ db_file w1 = Parquet (df w1)
    /\ priority_queue_list_next rt 1 w1 = (inr [new_item rt nm job prio], w1)
    /\ get_status (new_item rt nm job prio) = QueueItemStatus.IS_WAITING.
Proof.
  intros rt nm job prio w Hinst Hfile Hpay Hcls Hu Hok.
  unfold priority_queue_add_job. rewrite bind_run.
  destruct (QueueItem_new_run rt nm job prio w) as (w1 & Hnew & Hst & Hinst1 & Hpay1).
  rewrite Hnew, Hpay in *. unfold store in Hst. inversion Hst as [[Hdf1 Hfile1]].
  rewrite bind_run. unfold PriorityQueueDB_instance at 1. rewrite bind_run. cbn [get].
  rewrite Hinst1, Hinst. rewrite bind_run. unfold read at 1. rewrite Hfile1, Hfile.
  unfold modify at 1. cbv beta iota. rewrite bind_run. unfold add, modify. cbv beta iota.
  destruct w1 as [inst tbl file files clk reads lg reqs]. simpl in *. subst.
  eexists. split; [unfold write, bind, get, read, modify; simpl; rewrite Hfile; simpl; reflexivity|].
  match goal with |- context [priority_queue_list_next rt 1 ?W] => set (w1 := W) end.
  assert (Hi : db_instantiated w1 = true) by reflexivity.
  assert (Hd : df w1 = [row_of_item (new_item rt nm job prio)]) by reflexivity.
  assert (Hf : db_file w1 = Parquet (df w1)) by reflexivity.
  assert (Hp : payload_files w1 = files) by reflexivity.
  clearbody w1.
  split; [exact Hd|]. split; [exact Hf|]. split; [|reflexivity].
  unfold priority_queue_list_next, PriorityQueueDB_instance.
  rewrite bind_run, bind_run. cbn [get]. rewrite Hi. cbn [ret].
  unfold get_next. rewrite bind_run. cbn [get]. rewrite Hd.
  replace (slice_to _ 1) with [row_of_item (new_item rt nm job prio)] by reflexivity.
  simpl map_M. rewrite bind_run.
  rewrite from_dict_new_item; [reflexivity|assumption|assumption| |assumption].
  rewrite Hp. exact Hpay1.
Qed.

Lemma add_job_then_list_next_witness :
  db_instantiated Examples.w0 = false
  /\ exists w1,
       priority_queue_add_job Examples.rt "a" Examples.route_job 7 Examples.w0 = (inr tt, w1)
       /\ priority_queue_list_next Examples.rt 1 w1
          = (inr [new_item Examples.rt "a" Examples.route_job 7], w1).
Proof.
  split; [reflexivity|].
  destruct (add_job_then_list_next Examples.rt "a" Examples.route_job 7 Examples.w0)
    as (w1 & H1 & _ & _ & H2 & _); try reflexivity.
  - left; reflexivity.
  - discriminate.
  - exists w1. split; assumption.
Defined.

(** * The daemon keeps running *)

Section Contained.
Context {S : Type} (I : S -> Prop).

Lemma contained_ret {A} (a : A) : contained I (ret a).
Proof. intros s Hs. split; [exact Hs | discriminate]. Qed.

Lemma contained_raise {A} (e : exn) :
  is_Exception e = true -> contained I (@raise S A e).
Proof. intros He s Hs. split; [exact Hs|]. simpl. intros e' H. congruence. Qed.

Lemma contained_get : contained I (@get S).
Proof. intros s Hs. split; [exact Hs | discriminate]. Qed.

Lemma contained_modify (g : S -> S) :
  (forall s, I s -> I (g s)) -> contained I (modify g).
Proof. intros H s Hs. split; [apply H; exact Hs | discriminate]. Qed.

Lemma contained_bind {A B} (m : M S A) (k : A -> M S B) :
  contained I m -> (forall a, contained I (k a)) -> contained I (bind m k).
Proof.
  intros Hm Hk s Hs. unfold bind. destruct (Hm s Hs) as [H1 H2].
  destruct (m s) as [[e|a] s']; simpl in *.
  - split; [exact H1|]. intros e' H. inversion H; subst. apply H2. reflexivity.
  - apply Hk. exact H1.
Qed.

Lemma contained_bind_ret {A B} (a : A) (k : A -> M S B) :
  contained I (k a) -> contained I (bind (ret a) k).
Proof. intros H s Hs. exact (H s Hs). Qed.

Lemma contained_for_each {A} (l : list A) (body : A -> M S unit) :
  (forall a, contained I (body a)) -> contained I (for_each l body).
Proof.
  intros Hb. induction l as [|a l IH]; simpl.
  - apply contained_ret.
  - apply contained_bind; [apply Hb | intros _; exact IH].
Qed.

Lemma contained_map_M {A B} (g : A -> M S B) (l : list A) :
  (forall a, contained I (g a)) -> contained I (map_M g l).
Proof.
  intros Hg. induction l as [|a l IH]; simpl.
  - apply contained_ret.
  - apply contained_bind; [apply Hg | intros b].
    apply contained_bind; [exact IH | intros bs; apply contained_ret].
Qed.

End Contained.

(** Goes through the monadic structure of an operation; the exceptions the
    model raises itself are [Exception]s. *)
Ltac contained_step :=
  first
    [ apply contained_ret | apply contained_raise; reflexivity | apply contained_get
    | apply contained_bind; [|intros ?]
    | apply contained_for_each; intros ?
    | apply contained_map_M; intros ?
    | match goal with
      | |- contained _ (if ?b then _ else _) => destruct b
      | |- contained _ (match ?x with _ => _ end) => destruct x
      end ].

Section ContainedWorld.
Context (I : World -> Prop).
Hypothesis I_files : forall v w, I w -> I (set_payload_files v w).
Hypothesis I_reads : forall v w, I w -> I (set_clock_reads v w).
Hypothesis I_log : forall v w, I w -> I (set_log v w).
Hypothesis I_requests : forall v w, I w -> I (set_requests v w).

Lemma contained_lift_world {A} (m : M World A) :
  contained I m -> contained (on_world I) (lift_world m).
Proof.
  intros Hm [it w] Hs. unfold lift_world, on_world in *. simpl in *.
  specialize (Hm w Hs). destruct (m w) as [r w']. exact Hm.
Qed.

Lemma contained_self : contained (on_world I) self.
Proof. intros s Hs. split; [exact Hs | discriminate]. Qed.

Lemma contained_set_self g : contained (on_world I) (set_self g).
Proof. intros s Hs. split; [exact Hs | discriminate]. Qed.

Lemma contained_now : contained I now.
Proof. intros w Hw. split; [apply I_reads; exact Hw | discriminate]. Qed.

Lemma contained_log_record lvl msg : contained I (log_record lvl msg).
Proof. intros w Hw. split; [apply I_log; exact Hw | discriminate]. Qed.

Lemma contained_send {A} req (answer : list Request -> exn + A) :
  (forall h e, answer h = inl e -> is_Exception e = true) ->
  contained I (send req answer).
Proof.
  intros Ha w Hw. unfold send. simpl. split; [apply I_requests; exact Hw|].
  intros e H. exact (Ha _ _ H).
Qed.

Lemma contained_on_item {A} it (m : M ItemState A) :
  contained (on_world I) m -> contained I (on_item it m).
Proof.
  intros Hm w Hw. unfold on_item. specialize (Hm (it, w) Hw). unfold on_world in Hm.
  destruct (m (it, w)) as [[e|a] s]; simpl in *.
  - destruct Hm as [H1 H2]. split; [exact H1|].
    intros e' H. inversion H; subst. apply H2. reflexivity.
  - split; [apply Hm | discriminate].
Qed.

Ltac contained_item :=
  repeat first [ apply contained_self | apply contained_set_self
               | apply contained_lift_world
               | apply contained_now | apply contained_log_record
               | apply contained_modify; intros ? ?; apply I_files; assumption
               | contained_step ].

Lemma contained_error msg : contained (on_world I) (error msg).
Proof. unfold error. contained_item. Qed.

Lemma contained_erase : contained (on_world I) erase.
Proof. unfold erase. contained_item. Qed.

Lemma contained_store_payload : contained (on_world I) store_payload.
Proof.
  unfold store_payload.
  repeat first [ apply contained_error | apply contained_erase | contained_item ].
Qed.

Lemma contained_submit client :
  raises_only_Exceptions client -> contained (on_world I) (submit client).
Proof.
  intros (Hr & Ha & _ & _). unfold submit.
  apply contained_bind; [apply contained_self|]. intros it.
  destruct (negb _); [apply contained_raise; reflexivity|].
  destruct (payload it) as [p|]; [|apply contained_raise; reflexivity].
  destruct (isinstance p TomtomRouteJob); [|destruct (isinstance p TomtomAreaJob)].
  - apply contained_bind_ret.
    repeat first [ apply contained_error
                 | apply contained_send; intros h e; apply Hr
                 | contained_item ].
  - apply contained_bind_ret.
    repeat first [ apply contained_error
                 | apply contained_send; intros h e; apply Ha
                 | contained_item ].
  - intros s Hs. split; [exact Hs|]. intros e H. inversion H. reflexivity.
Qed.

Lemma contained_complete client :
  raises_only_Exceptions client -> contained (on_world I) (complete client).
Proof.
  intros (_ & _ & Hs & _). unfold complete.
  repeat first [ apply contained_error | apply contained_erase
               | apply contained_send; intros h e; apply Hs
               | contained_item ].
Qed.

Lemma contained_QueueItem_init rt nm pay prio cr u rtp up su co ca er j :
  contained I (QueueItem_init rt nm pay prio cr u rtp up su co ca er j).
Proof.
  unfold QueueItem_init. apply contained_bind.
  - destruct u as [u|]; [destruct (String.eqb u EmptyString)|];
      destruct pay; first [apply contained_ret | apply contained_raise; reflexivity].
  - intros u' w Hw. cbv beta zeta.
    destruct (payload_files w !! _); [split; [exact Hw | discriminate]|].
    match goal with |- context [store_payload ?s] =>
      pose proof (contained_store_payload s Hw) as H; unfold on_world in H;
      destruct (store_payload s) as [[e|a] s'] end; simpl in *.
    + destruct H as [H1 H2]. split; [exact H1|].
      intros e' H. inversion H; subst. apply H2. reflexivity.
    + split; [apply H | discriminate].
Qed.

Lemma contained_QueueItem_from_dict rt row : contained I (QueueItem_from_dict rt row).
Proof.
  unfold QueueItem_from_dict.
  repeat first [ apply contained_QueueItem_init
               | apply contained_raise; apply from_dict_error_is_Exception
               | contained_step ].
Qed.

Lemma contained_get_next rt n : contained I (get_next rt n).
Proof.
  unfold get_next.
  repeat first [ apply contained_QueueItem_from_dict | contained_step ].
Qed.

Lemma contained_get_filtered_items rt status : contained I (get_filtered_items rt status).
Proof.
  unfold get_filtered_items.
  repeat first [ apply contained_QueueItem_from_dict | contained_step ].
Qed.

End ContainedWorld.

Lemma readable_same_file : forall w w', db_file w' = db_file w -> readable w -> readable w'.
Proof. unfold readable. intros w w' ->. exact id. Qed.

Lemma contained_read : contained readable read.
Proof.
  intros w Hw. unfold read, readable in *.
  destruct (db_file w) as [|rows|why] eqn:E; simpl in *.
  - split; [rewrite E; discriminate | discriminate].
  - split; [rewrite E; discriminate | discriminate].
  - congruence.
Qed.

Lemma contained_write : contained readable write.
Proof.
  intros w Hw. unfold readable in Hw.
  destruct (stored_rows (db_file w)) as [disk|] eqn:E; [|congruence].
  destruct (write_returns w disk E) as (w' & H & _ & Hf).
  rewrite H. simpl. split; [|discriminate].
  unfold readable. rewrite Hf. discriminate.
Qed.

Lemma contained_db_update items force : contained readable (db_update items force).
Proof.
  unfold db_update, add.
  repeat first [ apply contained_write
               | apply contained_modify; intros ? ?; assumption
               | contained_step ].
Qed.

Lemma contained_tick_body rt client :
  raises_only_Exceptions client -> contained readable (tick_body rt client).
Proof.
  intros Hc. pose proof Hc as (_ & _ & _ & Hs).
  unfold tick_body, complete_old_submitted, submit_next, complete_and_log, submit_and_store.
  repeat first
    [ apply contained_send; [intros ? ? H; exact H | intros h e; apply Hs]
    | apply contained_log_record; intros ? ? H; exact H
    | apply contained_get_filtered_items; intros ? ? H; exact H
    | apply contained_get_next; intros ? ? H; exact H
    | apply contained_on_item
    | apply contained_complete; [intros ? ? H; exact H .. | exact Hc]
    | apply contained_submit; [intros ? ? H; exact H .. | exact Hc]
    | apply contained_db_update
    | contained_step ].
Qed.

(** An iteration that starts with a readable store ends normally and leaves
    the store readable. *)
Lemma tick_returns : forall rt client w,
  raises_only_Exceptions client -> readable w ->
  exists w', tick rt client w = (inr tt, w') /\ readable w'.
Proof.
  intros rt client w Hc Hw. unfold readable in Hw.
  destruct (stored_rows (db_file w)) as [rows|] eqn:E; [|congruence].
  pose proof (tick_swallows_body_errors rt client w rows E) as Ht. cbv zeta in Ht.
  destruct (contained_tick_body rt client Hc
              (set_df rows (snd (sleep (loop_duration rt) w)))) as [Hr He].
  { unfold readable. simpl. rewrite E. discriminate. }
  destruct (tick_body rt client _) as [[e|[]] w2]; simpl in *.
  - rewrite (He e eq_refl) in Ht. eexists. split; [exact Ht|exact Hr].
  - eexists. split; [exact Ht|exact Hr].
Qed.

(** X12.  As long as the file of the store can be read when the daemon starts and
    the client raises nothing but [Exception]s, no exception leaves the
    loop: whatever the answers of the remote service, whatever the records
    and payload files, every one of the [ticks] iterations runs to its end
    and leaves the file of the store readable for the next one.  (Failures of
    loading, submitting and completing are logged and the iteration is
    given up; only the reading of the store, which stands outside the
    [try], could end the daemon.) *)
Theorem daemon_keeps_running : forall (rt : Runtime) (client : TomtomClient)
    (ticks : nat) (w : World),
  raises_only_Exceptions client ->
  readable w ->
  exists w', run rt client ticks w = (inr tt, w') /\ readable w'.
Proof.
  intros rt client ticks w Hc Hw.
  assert (Hloop : forall n w0, readable w0 ->
            exists w', daemon_loop rt client n w0 = (inr tt, w') /\ readable w').
  { induction n as [|n IH]; intros w0 H0; simpl.
    - exists w0. split; [reflexivity | exact H0].
    - rewrite bind_run. destruct (tick_returns rt client w0 Hc H0) as (w1 & Ht & H1).
      rewrite Ht. apply IH. exact H1. }
  unfold run. rewrite bind_run.
  destruct (contained_bind readable get
              (fun w => if db_instantiated w then ret tt
                        else bind read (fun _ => modify (set_db_instantiated true)))
              (contained_get readable)) with (s := w) as [Hr He].
  - intros w0. destruct (db_instantiated w0); [apply contained_ret|].
    apply contained_bind; [apply contained_read|].
    intros _. apply contained_modify. intros s Hs. exact Hs.
  - exact Hw.
  - change (bind get _) with PriorityQueueDB_instance in *.
    destruct (PriorityQueueDB_instance w) as [[e|[]] w1] eqn:Ei; simpl in *.
    + exfalso. unfold PriorityQueueDB_instance in Ei. rewrite bind_run in Ei.
      cbn [get] in Ei. destruct (db_instantiated w); [discriminate|].
      rewrite bind_run in Ei. unfold read, readable in *.
      destruct (db_file w); simpl in *; try discriminate. congruence.
    + apply Hloop. exact Hr.
Qed.

Lemma daemon_keeps_running_witness :
  let r := Examples.row "u1" "TomtomTrafficDensityJob" 5 500 None None None in
  let client := Examples.client_with 2 [] TomtomJobState.DONE [4] in
  let w := Examples.on_disk [r] [] in
  readable w
  /\ exists w', run Examples.rt client 3 w = (inr tt, w') /\ readable w'.
Proof.
  intros r client w.
  assert (Hw : readable w) by (unfold readable; discriminate).
  split; [exact Hw|].
  apply (daemon_keeps_running Examples.rt client 3 w); [|exact Hw].
  repeat split; intros ? ? e H; vm_compute in H;
    repeat match type of H with
           | context [match ?x with _ => _ end] => destruct x
           end; inversion H; reflexivity.
Defined.

(** * Submissions and the store *)

Lemma submit_run : forall client it w p request answer,
  get_status it = QueueItemStatus.IS_WAITING ->
  payload it = Some p ->
  submit_endpoint client (job_class p) = Some (request, answer) ->
  let t := clock w (clock_reads w) in
  match answer (requests w) p with
  | inl e =>
      submit client (it, w)
      = (inl e, (set_submitted_timestamp (Some t) it,
                 set_requests (request p :: requests w)
                   (set_clock_reads (S (clock_reads w)) w)))
  | inr response =>
      exists it' w',
        submit client (it, w) = (inr tt, (it', w'))
        /\ store w' = store w
        /\ requests w' = request p :: requests w
        /\ uid it' = uid it
        /\ submitted_timestamp it' = Some t
        /\ tomtom_job_id it' = ra_job_id response
        /\ get_status it'
           = (if String.eqb (lower (ra_response_status response)) "error"
              then QueueItemStatus.HAS_ERROR else QueueItemStatus.SUBMITTED)
  end.
Proof.
  intros client it w p request answer Hst Hp Hend.
  destruct (get_status_waiting_inv it Hst) as (He & Hc & Hs & Hx).
  destruct it as [u nm rtp pay pr cr up su co ca er j lnk]; simpl in *; subst.
  destruct w as [inst tbl file files clk reads lg reqs]. simpl in *.
  destruct p as [[| |] d]; simpl in Hend; inversion Hend; subst; clear Hend;
    (match goal with
     | |- match ?a with _ => _ end => destruct a as [e|response] eqn:Hans
     end;
     [ run_item; cbv beta iota delta [isinstance JobClass_eqb job_class];
       run_item; rewrite Hans; reflexivity
     | destruct (String.eqb (lower (ra_response_status response)) "error") eqn:Herr;
       do 2 eexists;
       (split; [ run_item; cbv beta iota delta [isinstance JobClass_eqb job_class];
                 run_item; rewrite Hans; cbv beta iota; rewrite Herr; reflexivity |]);
       repeat split ]).
Qed.

Lemma map_r_uid_row_of_item : forall items,
  map r_uid (map row_of_item items) = map uid items.
Proof. intros items. rewrite map_map. reflexivity. Qed.

Lemma NoDup_uid_filter : forall (uids : list string) (l : list Row),
  NoDup (map r_uid l) -> NoDup (map r_uid (filter (fun r => r_uid r ∉ uids) l)).
Proof.
  intros uids l. induction l as [|x l IH]; intros Hnd; simpl; [constructor|].
  simpl in Hnd. apply NoDup_cons in Hnd as [Hx Hl].
  rewrite filter_cons. case_decide; [|apply IH; exact Hl].
  simpl. apply NoDup_cons. split; [|apply IH; exact Hl].
  intros Hin. apply Hx. apply list_elem_of_fmap in Hin as (r & -> & Hr).
  apply list_elem_of_filter in Hr as [_ Hr].
  apply list_elem_of_fmap. exists r. split; [reflexivity | exact Hr].
Qed.

(** [db.update(items, True)] on a synchronised store: the records of the
    items stand at the end of the table, in place of the ones with their
    uids, and the store is synchronised again. *)
Lemma db_update_synchronised : forall items w,
  synchronised w ->
  NoDup (map uid items) ->
  exists w',
    db_update items true w = (inr tt, w')
    /\ df w' = (filter (fun r => r_uid r ∉ map uid items) (df w)
                ++ map row_of_item items)%list
    /\ synchronised w'
    /\ payload_files w' = payload_files w.
Proof.
  intros items w [Hf Hnd] Hit.
  destruct (db_update_write items w (df w)) as (w' & H & Hdf & Hfile & Hp).
  { rewrite Hf. reflexivity. }
  set (kept := filter (fun r => r_uid r ∉ map uid items) (df w)) in *.
  assert (Hk : forall u, u ∈ map r_uid kept -> u ∈ map r_uid (df w) /\ u ∉ map uid items).
  { intros u Hu. apply list_elem_of_fmap in Hu as (r & -> & Hr).
    apply list_elem_of_filter in Hr as [H1 H2]. split; [|exact H1].
    apply list_elem_of_fmap. exists r. split; [reflexivity | exact H2]. }
  assert (Hnd' : NoDup (map r_uid (kept ++ map row_of_item items))).
  { rewrite map_app, map_r_uid_row_of_item. apply NoDup_app. split; [|split].
    - apply NoDup_uid_filter. exact Hnd.
    - intros u Hu. apply Hk in Hu. apply Hu.
    - exact Hit. }
  assert (Hdf' : df w' = (kept ++ map row_of_item items)%list).
  { rewrite Hdf. apply drop_duplicates_from_NoDup_prefix; [exact Hnd'| |].
    - intros u _. apply not_elem_of_nil.
    - intros u Hu. left. rewrite map_app, map_r_uid_row_of_item.
      apply elem_of_app. destruct (decide (u ∈ map uid items)) as [Hi|Hi];
        [right; exact Hi | left].
      apply list_elem_of_fmap in Hu as (r & -> & Hr).
      apply list_elem_of_fmap. exists r. split; [reflexivity|].
      apply list_elem_of_filter. split; [exact Hi | exact Hr]. }
  exists w'. split; [exact H|]. split; [exact Hdf'|].
  split; [|exact Hp]. split; [exact Hfile|]. rewrite Hdf'. exact Hnd'.
Qed.

(** X13.  The body of the submission loop, on a synchronised store and a waiting
    route or area item.  When the service answers, the item is on disk as
    submitted before the loop goes on: its record, with the submission
    timestamp and the job id of the answer (and the error timestamp if the
    answer is an error), stands at the end of the table in place of the old
    one, and the file holds the table.  When the request raises, the
    request has been sent but nothing is written: the object carries a
    submission timestamp, the table and the file still show the item
    waiting, so that it is taken again at the next iteration. *)
Theorem submit_and_store_outcome : forall (client : TomtomClient) (it : QueueItem)
    (w : World) (p : TomtomJob) request answer,
  synchronised w ->
  get_status it = QueueItemStatus.IS_WAITING ->
  payload it = Some p ->
  submit_endpoint client (job_class p) = Some (request, answer) ->
  match answer (requests w) p with
  | inl e =>
      exists w',
        submit_and_store client it w = (inl e, w')
        /\ store w' = store w
        /\ requests w' = request p :: requests w
  | inr response =>
      exists it' w',
        submit_and_store client it w = (inr tt, w')
        /\ df w' = (filter (fun r => r_uid r ∉ [uid it]) (df w) ++ [row_of_item it'])%list
        /\ synchronised w'
        /\ requests w' = request p :: requests w
        /\ r_uid (row_of_item it') = uid it
        /\ r_submitted_timestamp (row_of_item it') = Some (clock w (clock_reads w))
        /\ r_tomtom_job_id (row_of_item it') = ra_job_id response
        /\ row_status (row_of_item it')
           = (if String.eqb (lower (ra_response_status response)) "error"
              then QueueItemStatus.HAS_ERROR else QueueItemStatus.SUBMITTED)
  end.
Proof.
  intros client it w p request answer Hsync Hst Hp Hend.
  pose proof (submit_run client it w p request answer Hst Hp Hend) as Hrun.
  cbv zeta in Hrun. unfold submit_and_store. 
  destruct (answer (requests w) p) as [e|response].
  - eexists. rewrite bind_run. unfold on_item. rewrite Hrun. cbn [snd fst].
    split; [reflexivity|]. split; reflexivity.
  - destruct Hrun as (it' & w' & Hrun & Hstore & Hreq & Hu & Hs & Hj & Hg).
    rewrite bind_run. unfold on_item. rewrite Hrun. cbn [snd fst]. rewrite bind_run.
    unfold log_record at 1, modify at 1. cbv beta iota.
    match goal with |- context [db_update _ true ?W] => set (w1 := W) end.
    assert (Hs1 : synchronised w1).
    { unfold synchronised, store in *. inversion Hstore as [[H1 H2]].
      subst w1. simpl. rewrite H1, H2. exact Hsync. }
    destruct (db_update_synchronised [it'] w1 Hs1) as (w2 & Hup & Hdf & Hs2 & _).
    { simpl. repeat constructor. apply not_elem_of_nil. }
    exists it', w2. split; [exact Hup|].
    split.
    { rewrite Hdf. simpl. rewrite Hu. subst w1. simpl.
      unfold store in Hstore. inversion Hstore as [[H1 H2]]. rewrite H1. reflexivity. }
    split; [exact Hs2|].
    split.
    { pose proof (unchanged_db_update requests (fun _ _ => eq_refl) (fun _ _ => eq_refl)
                    [it'] true w1) as Hr.
      rewrite Hup in Hr. simpl in Hr. rewrite Hr. subst w1. simpl. exact Hreq. }
    split; [exact Hu|]. split; [exact Hs|]. split; [exact Hj|].
    rewrite <- Hg. symmetry. apply get_status_projection.
Qed.

Lemma submit_and_store_outcome_witness :
  let it := Examples.item "r1" (Some Examples.route_job) 5 500 None None None in
  let r := Examples.row "r1" "TomtomRouteJob" 5 500 None None None in
  let w := set_df [r] (Examples.on_disk [r] []) in
  synchronised w
  /\ exists it' w',
       submit_and_store Examples.DummyTomtomClient it w = (inr tt, w')
       /\ df w' = [row_of_item it']
       /\ row_status (row_of_item it') = QueueItemStatus.SUBMITTED.
Proof.
  intros it r w.
  assert (Hs : synchronised w).
  { split; [reflexivity|]. repeat constructor. apply not_elem_of_nil. }
  split; [exact Hs|].
  pose proof (submit_and_store_outcome Examples.DummyTomtomClient it w
                Examples.route_job _ _ Hs eq_refl eq_refl eq_refl) as H.
  simpl in H. destruct H as (it' & w' & H1 & H2 & _ & _ & _ & _ & _ & H3).
  exists it', w'. split; [exact H1|]. split; [exact H2 | exact H3].
Defined.

(** * Job states from their names *)

Lemma members_with_name : forall s,
  filter (fun s' => TomtomJobState.name s = TomtomJobState.name s') TomtomJobState_members
  = [s].
Proof. intros s. destruct s; vm_compute; reflexivity. Qed.

Lemma members_without_name : forall u,
  (forall s, u <> TomtomJobState.name s) ->
  filter (fun s => u = TomtomJobState.name s) TomtomJobState_members = [].
Proof.
  intros u H. induction TomtomJobState_members as [|x l IH]; [reflexivity|].
  rewrite filter_cons. case_decide as Hx; [destruct (H x Hx) | exact IH].
Qed.

Lemma name_of_some_member : forall u,
  (exists s, u = TomtomJobState.name s) \/ (forall s, u <> TomtomJobState.name s).
Proof.
  intros u.
  destruct (decide (Exists (fun s => u = TomtomJobState.name s) TomtomJobState_members))
    as [H|H].
  - left. apply Exists_exists in H as (s & _ & Hs). exists s. exact Hs.
  - right. intros s Hs. apply H. apply Exists_exists. exists s. split; [|exact Hs].
    destruct s; vm_compute; set_solver.
Qed.

(** X14.  [TomtomJobState.from_str] reads a state back from its name, whatever
    the case of the letters, and accepts nothing else: on a text of ASCII
    characters it returns the state [s] exactly when the text in capital
    letters is the name of [s], and raises ValueError, with the text in
    capital letters in the message, when it is the name of no state.  (The
    list comprehension never holds two states, so the test on its length
    only rejects the empty list.) *)
Theorem from_str_reads_names_back : forall (status : string),
  is_ascii status = true ->
  (forall s, TomtomJobState_from_str status = inr s
             <-> upper status = TomtomJobState.name s)
  /\ ((forall s, upper status <> TomtomJobState.name s) ->
      TomtomJobState_from_str status
      = inl (ValueError ("The given status is invalid (" ++ upper status ++ ")")))
  /\ (forall s, TomtomJobState_from_str (TomtomJobState.name s) = inr s
                /\ TomtomJobState_from_str (lower (TomtomJobState.name s)) = inr s).
Proof.
  intros status _. split; [|split].
  - intros s. unfold TomtomJobState_from_str.
    destruct (name_of_some_member (upper status)) as [[s' Hs']|Hno].
    + rewrite Hs', members_with_name. simpl. split.
      * intros H. inversion H. reflexivity.
      * intros H. f_equal. destruct s, s'; vm_compute in H; congruence.
    + rewrite (members_without_name _ Hno). simpl. split; [discriminate|].
      intros H. destruct (Hno s H).
  - intros Hno. unfold TomtomJobState_from_str.
    rewrite (members_without_name _ Hno). reflexivity.
  - intros s. split; destruct s; vm_compute; reflexivity.
Qed.

Lemma from_str_reads_names_back_witness :
  is_ascii "Need_Confirmation" = true
  /\ TomtomJobState_from_str "Need_Confirmation" = inr TomtomJobState.NEED_CONFIRMATION
  /\ TomtomJobState_from_str "finished"
     = inl (ValueError "The given status is invalid (FINISHED)").
Proof.
  split; [reflexivity|].
  destruct (from_str_reads_names_back "Need_Confirmation" eq_refl) as (H1 & _ & _).
  destruct (from_str_reads_names_back "finished" eq_refl) as (_ & H2 & _).
  split.
  - apply H1. reflexivity.
  - apply H2. intros s. destruct s; vm_compute; discriminate.
Defined.

(** * A record that cannot be loaded *)

Lemma QueueItem_from_dict_unknown : forall rt r w,
  unknown_report_type r ->
  exists msg, QueueItem_from_dict rt r w = (inl (ValueError msg), w).
Proof.
  intros rt r w [H1 H2]. unfold QueueItem_from_dict.
  apply String.eqb_neq in H1. apply String.eqb_neq in H2.
  rewrite bind_run, H1, H2. eexists. reflexivity.
Qed.

Lemma map_M_from_dict_unknown : forall rt rows r,
  r ∈ rows -> unknown_report_type r ->
  forall w, exists e, fst (map_M (QueueItem_from_dict rt) rows w) = inl e.
Proof.
  intros rt rows r Hin Hr. induction rows as [|x rows IH]; intros w; [inversion Hin|].
  simpl. rewrite bind_run.
  destruct (QueueItem_from_dict rt x w) as [[e|it] w1] eqn:Ex; [exists e; reflexivity|].
  apply elem_of_cons in Hin as [->|Hin].
  - destruct (QueueItem_from_dict_unknown rt x w Hr) as (msg & Hm). congruence.
  - rewrite bind_run. destruct (IH Hin w1) as (e & He).
    destruct (map_M (QueueItem_from_dict rt) rows w1) as [[e'|its] w2]; simpl in He;
      [exists e'; reflexivity | discriminate].
Qed.

Lemma get_filtered_items_unknown : forall rt status r w,
  r ∈ df w -> unknown_report_type r ->
  exists e, fst (get_filtered_items rt status w) = inl e.
Proof.
  intros rt status r w Hin Hr. unfold get_filtered_items. rewrite bind_run. cbn [get].
  destruct (df w) as [|x l] eqn:Ed; [inversion Hin|].
  replace ((length (x :: l) <? 1)%nat) with false by reflexivity.
  rewrite bind_run. destruct (map_M_from_dict_unknown rt (x :: l) r Hin Hr w) as (e & He).
  destruct (map_M (QueueItem_from_dict rt) (x :: l) w) as [[e'|its] w1]; simpl in He;
    [exists e'; reflexivity | discriminate].
Qed.

Section Blocked.
Context {X : Type} (f : World -> X).
Hypothesis f_files : forall v w, f (set_payload_files v w) = f w.
Hypothesis f_reads : forall v w, f (set_clock_reads v w) = f w.
Hypothesis f_log : forall v w, f (set_log v w) = f w.
Hypothesis f_request : forall q w,
  is_post q = false -> f (set_requests (q :: requests w) w) = f w.
Hypothesis f_df : forall v w, f (set_df v w) = f w.
Hypothesis f_clock : forall v w, f (set_clock v w) = f w.

Lemma tick_body_blocked : forall rt client r w,
  r ∈ df w -> unknown_report_type r ->
  f (snd (tick_body rt client w)) = f w.
Proof.
  intros rt client r w Hin Hr. unfold tick_body. rewrite bind_run. unfold send at 1.
  set (w1 := set_requests (SearchJobs in_progress_states :: requests w) w).
  assert (H1 : f w1 = f w) by (apply f_request; reflexivity).
  destruct (search_jobs client (requests w) in_progress_states) as [e|jobs];
    [exact H1|].
  destruct (total_elements jobs <? N_CONCURRENT_JOB_IN_PROGRESS); [|exact H1].
  rewrite bind_run. unfold log_record at 1, modify at 1. cbv beta iota.
  match goal with |- context [set_log ?l w1] => set (w2 := set_log l w1) end.
  assert (H2 : f w2 = f w) by (subst w2; rewrite f_log; exact H1).
  rewrite bind_run. unfold complete_old_submitted. rewrite bind_run.
  destruct (get_filtered_items_unknown rt [QueueItemStatus.SUBMITTED] r w2 Hin Hr)
    as (e & He).
  pose proof (unchanged_get_filtered_items f f_files f_reads f_log rt
                [QueueItemStatus.SUBMITTED] w2) as Hu.
  destruct (get_filtered_items rt [QueueItemStatus.SUBMITTED] w2) as [[e'|its] w3];
    simpl in He, Hu; [|discriminate].
  simpl. rewrite Hu. exact H2.
Qed.

Lemma tick_blocked : forall rt client r rows w,
  db_file w = Parquet rows -> r ∈ rows -> unknown_report_type r ->
  f (snd (tick rt client w)) = f w.
Proof.
  intros rt client r rows w Hfile Hin Hr.
  pose proof (tick_swallows_body_errors rt client w rows) as Ht.
  rewrite Hfile in Ht. specialize (Ht eq_refl). cbv zeta in Ht.
  pose proof (tick_body_blocked rt client r
                (set_df rows (snd (sleep (loop_duration rt) w))) Hin Hr) as Hb.
  assert (H0 : f (set_df rows (snd (sleep (loop_duration rt) w))) = f w).
  { rewrite f_df. unfold sleep, modify. simpl. apply f_clock. }
  destruct (tick_body rt client _) as [[e|[]] w2]; simpl in Hb.
  - destruct (is_Exception e); rewrite Ht; simpl; [rewrite f_log|]; congruence.
  - rewrite Ht. simpl. congruence.
Qed.

End Blocked.

(** X15.  One record with a report type that [QueueItem.from_dict] does not know
    (the record [priority_queue_add_job] writes for a traffic-density job
    is one) stops the work of the daemon for good.  As long as it is in
    the file of the store, [get_filtered_items] raises whatever the
    statuses asked for, because every record is turned into an item before
    the statuses are compared; so every iteration of the daemon fails in
    step 1, before anything is submitted, completed or written: however
    many iterations run, whatever the client answers and whatever else is
    waiting, no submission request is sent and the file stays as it is. *)
Theorem unknown_report_type_blocks_the_daemon : forall (rt : Runtime)
    (client : TomtomClient) (ticks : nat) (w : World) (rows : list Row) (r : Row),
  db_file w = Parquet rows ->
  r ∈ rows ->
  unknown_report_type r ->
  (forall status w1, df w1 = rows ->
     exists e, fst (get_filtered_items rt status w1) = inl e)
  /\ posts (snd (daemon_loop rt client ticks w)) = posts w
  /\ db_file (snd (daemon_loop rt client ticks w)) = db_file w.
Proof.
  intros rt client ticks w rows r Hfile Hin Hr. split.
  { intros status w1 Hdf. apply (get_filtered_items_unknown rt status r); [|exact Hr].
    rewrite Hdf. exact Hin. }
  revert w Hfile. induction ticks as [|k IH]; intros w Hfile; [split; reflexivity|].
  simpl. rewrite bind_run.
  pose proof (tick_blocked posts posts_files posts_reads posts_log posts_request
                (fun _ _ => eq_refl) (fun _ _ => eq_refl) rt client r rows w Hfile Hin Hr)
    as Hp.
  pose proof (tick_blocked db_file (fun _ _ => eq_refl) (fun _ _ => eq_refl)
                (fun _ _ => eq_refl) (fun _ _ _ => eq_refl)
                (fun _ _ => eq_refl) (fun _ _ => eq_refl) rt client r rows w Hfile Hin Hr)
    as Hd.
  destruct (tick rt client w) as [[e|[]] w1]; simpl in Hp, Hd; [split; assumption|].
  destruct (IH w1) as [H1 H2]; [congruence|].
  rewrite H1, H2. split; assumption.
Qed.

Lemma unknown_report_type_blocks_the_daemon_witness :
  let w := snd (priority_queue_add_job Examples.rt "a" Examples.route_job 9
                  (snd (priority_queue_add_job Examples.rt "d" Examples.density_job 1
                          Examples.w0))) in
  let r := row_of_item (new_item Examples.rt "d" Examples.density_job 1) in
  let rows := [r; row_of_item (new_item Examples.rt "a" Examples.route_job 9)] in
  db_file w = Parquet rows
  /\ posts (snd (daemon_loop Examples.rt Examples.DummyTomtomClient 4 w)) = []
  /\ db_file (snd (daemon_loop Examples.rt Examples.DummyTomtomClient 4 w)) = Parquet rows.
Proof.
  intros w r rows.
  assert (Hfile : db_file w = Parquet rows) by (vm_compute; reflexivity).
  split; [exact Hfile|].
  destruct (unknown_report_type_blocks_the_daemon Examples.rt Examples.DummyTomtomClient
              4 w rows r Hfile) as (_ & H1 & H2).
  - now left.
  - split; discriminate.
  - split; [exact H1 | rewrite H2; exact Hfile].
Defined.

(** * Route jobs and their dictionaries *)

Lemma upper_ascii_idempotent : forall c, upper_ascii (upper_ascii c) = upper_ascii c.
Proof. intros c. destruct c as [[] [] [] [] [] [] [] []]; reflexivity. Qed.

Lemma upper_idempotent : forall s, upper (upper s) = upper s.
Proof.
  induction s as [|c s IH]; simpl; [reflexivity|].
  rewrite upper_ascii_idempotent, IH. reflexivity.
Qed.

Lemma map_M_call_round_trip {A B : Type} (to : A -> B) (from : B -> exn + A) :
  (forall a, from (to a) = inr a) ->
  forall l s, map_M (fun b => Jobs.call (from b)) (map to l) s = (inr l, s).
Proof.
  intros H. induction l as [|a l IH]; intros []; simpl; [reflexivity|].
  rewrite bind_run. unfold Jobs.call at 1. rewrite H. rewrite bind_run, IH. reflexivity.
Qed.

Lemma map_M_call_state {A B : Type} (from : B -> exn + A) : forall l s,
  snd (map_M (fun b => Jobs.call (from b)) l s) = s.
Proof. intros l []. destruct (map_M _ l tt) as [r []]. reflexivity. Qed.

Section RouteJobs.
Context {obj float TomtomRoad TomtomDateRange TomtomTimeSet : Type}.
Variable TomtomRoad_to_dict : TomtomRoad -> obj.
Variable TomtomRoad_from_dict : obj -> exn + TomtomRoad.
Variable TomtomDateRange_to_dict : TomtomDateRange -> obj.
Variable TomtomDateRange_from_dict : obj -> exn + TomtomDateRange.
Variable TomtomTimeSet_to_dict : TomtomTimeSet -> obj.
Variable TomtomTimeSet_from_dict : obj -> exn + TomtomTimeSet.

Local Abbreviation to_dict :=
  (Jobs.TomtomRouteJob_to_dict TomtomRoad_to_dict TomtomDateRange_to_dict
     TomtomTimeSet_to_dict).
Local Abbreviation from_dict :=
  (Jobs.TomtomRouteJob_from_dict TomtomRoad_from_dict TomtomDateRange_from_dict
     TomtomTimeSet_from_dict).

(** What [__init__] has accepted, it accepts again, and gives the same
    object. *)
Lemma TomtomRouteJob_init_again : forall nm rs ds ts du am mv th
    (job : Jobs.TomtomRouteJob float TomtomRoad TomtomDateRange TomtomTimeSet),
  Jobs.TomtomRouteJob_init nm rs ds ts du am mv th tt = (inr job, tt) ->
  Jobs.TomtomRouteJob_init (Jobs.job_name job) (Jobs.routes job) (Jobs.date_ranges job)
    (Jobs.time_sets job) (Jobs.distance_unit job) (Jobs.accept_mode job)
    (Jobs.map_version job) (Jobs.average_sample_size_threshold job) tt
  = (inr job, tt).
Proof.
  intros nm rs ds ts du am mv th job H.
  unfold Jobs.TomtomRouteJob_init in *.
  rewrite bind_run in H.
  destruct (Jobs.MAX_ROAD_COUNT <? length rs)%nat eqn:E1; [discriminate|].
  cbn [ret] in H. rewrite bind_run in H.
  destruct (Jobs.MAX_DATE_RANGE_COUNT <? length ds)%nat eqn:E2; [discriminate|].
  cbn [ret] in H. rewrite bind_run in H.
  destruct (Jobs.MAX_TIME_SETS_COUNT <? length ts)%nat eqn:E3; [discriminate|].
  cbn [ret] in H. rewrite bind_run in H.
  destruct (negb (existsb (String.eqb (upper du)) ["KILOMETERS"; "MILES"])) eqn:E4;
    [discriminate|].
  cbn [ret] in H. rewrite bind_run in H.
  assert (E5 : match am with
               | Some a => negb (existsb (String.eqb (upper a)) ["AUTO"; "MANUAL"]) = false
               | None => True
               end).
  { destruct am as [a|]; [|exact I].
    destruct (negb (existsb (String.eqb (upper a)) ["AUTO"; "MANUAL"]));
      [discriminate | reflexivity]. }
  assert (Hjob : job = {| Jobs.job_name := nm; Jobs.routes := rs; Jobs.date_ranges := ds;
                          Jobs.time_sets := ts; Jobs.distance_unit := upper du;
                          Jobs.accept_mode := am; Jobs.map_version := mv;
                          Jobs.average_sample_size_threshold := th |}).
  { destruct am as [a|]; [rewrite E5 in H|]; cbn [ret] in H; inversion H; reflexivity. }
  subst job. cbn [Jobs.job_name Jobs.routes Jobs.date_ranges Jobs.time_sets
                  Jobs.distance_unit Jobs.accept_mode Jobs.map_version
                  Jobs.average_sample_size_threshold].
  rewrite upper_idempotent.
  rewrite bind_run, E1. cbn [ret]. rewrite bind_run, E2. cbn [ret].
  rewrite bind_run, E3. cbn [ret]. rewrite bind_run, E4. cbn [ret]. rewrite bind_run.
  destruct am as [a|]; [rewrite E5|]; reflexivity.
Qed.

(** X16.  A route job is read back from its dictionary exactly when its accept
    mode and its map version are given.  When the roads, the date ranges
    and the time sets are read back from theirs, [from_dict (to_dict job)]
    is [job] for every job that [__init__] has accepted with an accept mode
    and a map version; it raises KeyError on [acceptMode] for a job without
    accept mode and on [mapVersion] for a job with an accept mode and
    without map version, which is the default: [to_dict] leaves out the
    entries that are [None], [from_dict] subscripts the dictionary with
    these two keys. *)
Theorem route_job_round_trip : forall nm rs ds ts du am mv th
    (job : Jobs.TomtomRouteJob float TomtomRoad TomtomDateRange TomtomTimeSet),
  (forall r, TomtomRoad_from_dict (TomtomRoad_to_dict r) = inr r) ->
  (forall d, TomtomDateRange_from_dict (TomtomDateRange_to_dict d) = inr d) ->
  (forall t, TomtomTimeSet_from_dict (TomtomTimeSet_to_dict t) = inr t) ->
  Jobs.TomtomRouteJob_init nm rs ds ts du am mv th tt = (inr job, tt) ->
  from_dict (to_dict job) tt
  = match Jobs.accept_mode job, Jobs.map_version job with
    | None, _ => (inl (KeyError "acceptMode"), tt)
    | Some _, None => (inl (KeyError "mapVersion"), tt)
    | Some _, Some _ => (inr job, tt)
    end.
Proof.
  intros nm rs ds ts du am mv th job Hr Hd Ht Hinit.
  pose proof (TomtomRouteJob_init_again _ _ _ _ _ _ _ _ _ Hinit) as Hagain.
  unfold Jobs.TomtomRouteJob_from_dict, Jobs.TomtomRouteJob_to_dict.
  cbn [Jobs.jobName Jobs.routes_entry Jobs.dateRanges Jobs.timeSets Jobs.distanceUnit
       Jobs.acceptMode Jobs.mapVersion Jobs.averageSampleSizeThreshold Jobs.getitem].
  rewrite bind_run. cbn [ret]. rewrite bind_run. cbn [ret].
  rewrite bind_run, (map_M_call_round_trip _ _ Hr).
  rewrite bind_run. cbn [ret].
  rewrite bind_run, (map_M_call_round_trip _ _ Hd).
  rewrite bind_run. cbn [ret].
  rewrite bind_run, (map_M_call_round_trip _ _ Ht).
  rewrite bind_run. cbn [ret]. rewrite bind_run.
  destruct (Jobs.accept_mode job) as [a|] eqn:Ea; [|reflexivity].
  cbn [Jobs.if_not_None Jobs.getitem ret]. rewrite bind_run.
  destruct (Jobs.map_version job) as [v|] eqn:Ev; [|reflexivity].
  cbn [Jobs.if_not_None Jobs.getitem ret]. exact Hagain.
Qed.

(** X17.  Whatever the models of the roads, date ranges and time sets do, a job
    without map version or without accept mode is not read back from its
    dictionary: [from_dict (to_dict job)] raises. *)
Theorem route_job_without_map_version_is_not_read_back : forall
    (job : Jobs.TomtomRouteJob float TomtomRoad TomtomDateRange TomtomTimeSet),
  Jobs.map_version job = None \/ Jobs.accept_mode job = None ->
  exists e, from_dict (to_dict job) tt = (inl e, tt).
Proof.
  intros job Hnone.
  unfold Jobs.TomtomRouteJob_from_dict, Jobs.TomtomRouteJob_to_dict.
  cbn [Jobs.jobName Jobs.routes_entry Jobs.dateRanges Jobs.timeSets Jobs.distanceUnit
       Jobs.acceptMode Jobs.mapVersion Jobs.averageSampleSizeThreshold Jobs.getitem].
  rewrite bind_run. cbn [ret]. rewrite bind_run. cbn [ret]. rewrite bind_run.
  match goal with |- context [map_M ?g ?l tt] =>
    pose proof (map_M_call_state TomtomRoad_from_dict l tt) as Hs;
    destruct (map_M g l tt) as [[e|rs] s] end; simpl in Hs; subst s;
    [exists e; reflexivity|].
  rewrite bind_run. cbn [ret]. rewrite bind_run.
  match goal with |- context [map_M ?g ?l tt] =>
    pose proof (map_M_call_state TomtomDateRange_from_dict l tt) as Hs;
    destruct (map_M g l tt) as [[e|ds] s] end; simpl in Hs; subst s;
    [exists e; reflexivity|].
  rewrite bind_run. cbn [ret]. rewrite bind_run.
  match goal with |- context [map_M ?g ?l tt] =>
    pose proof (map_M_call_state TomtomTimeSet_from_dict l tt) as Hs;
    destruct (map_M g l tt) as [[e|ts] s] end; simpl in Hs; subst s;
    [exists e; reflexivity|].
  rewrite bind_run. cbn [ret]. rewrite bind_run.
  destruct (Jobs.accept_mode job) as [a|]; [|eexists; reflexivity].
  cbn [Jobs.if_not_None Jobs.getitem ret]. rewrite bind_run.
  destruct (Jobs.map_version job) as [v|]; [|eexists; reflexivity].
  destruct Hnone; discriminate.
Qed.

End RouteJobs.

Lemma route_job_round_trip_witness :
  let init mv := Jobs.TomtomRouteJob_init (float := Z) (TomtomRoad := string)
                   (TomtomDateRange := string) (TomtomTimeSet := string)
                   "job" ["road"] ["2023"] ["morning"] "kilometers" (Some "auto")
                   mv None tt in
  exists job job',
    init (Some 2023) = (inr job, tt)
    /\ Jobs.distance_unit job = "KILOMETERS"
    /\ Jobs.accept_mode job = Some "auto"
    /\ Jobs.TomtomRouteJob_from_dict inr inr inr (Jobs.TomtomRouteJob_to_dict id id id job) tt
       = (inr job, tt)
    /\ init None = (inr job', tt)
    /\ Jobs.TomtomRouteJob_from_dict inr inr inr (Jobs.TomtomRouteJob_to_dict id id id job') tt
       = (inl (KeyError "mapVersion"), tt).
Proof.
  intros init.
  pose proof (route_job_round_trip (obj := string) id inr id inr id inr
                "job" ["road"] ["2023"] ["morning"] "kilometers" (Some "auto")
                (Some 2023) None _ (fun _ => eq_refl) (fun _ => eq_refl)
                (fun _ => eq_refl) eq_refl) as H1.
  pose proof (route_job_round_trip (obj := string) (float := Z) id inr id inr id inr
                "job" ["road"] ["2023"] ["morning"] "kilometers" (Some "auto")
                None None _ (fun _ => eq_refl) (fun _ => eq_refl)
                (fun _ => eq_refl) eq_refl) as H2.
  do 2 eexists.
  split; [reflexivity|]. split; [reflexivity|]. split; [reflexivity|].
  split; [exact H1|]. split; [reflexivity | exact H2].
Defined.

Lemma route_job_without_map_version_is_not_read_back_witness :
  let job := {| Jobs.job_name := "job"; Jobs.routes := ["road"];
                Jobs.date_ranges := ["2023"]; Jobs.time_sets := ["morning"];
                Jobs.distance_unit := "KILOMETERS"; Jobs.accept_mode := Some "AUTO";
                Jobs.map_version := @None Z;
                Jobs.average_sample_size_threshold := None |} in
  exists e,
    Jobs.TomtomRouteJob_from_dict (obj := string) inr inr inr
      (Jobs.TomtomRouteJob_to_dict id id id job) tt = (inl e, tt).
Proof.
  intros job.
  apply (route_job_without_map_version_is_not_read_back (obj := string) id inr id inr id inr
           job).
  left. reflexivity.
Defined.
